(** * HandPipeline: the region-of-interest tracker of src/handpose/handpipeline.js

    A shallow embedding of the [HandPipeline] class: the per-slot IoU gate
    ([updateRegionsOfInterest]), the landmark bounding box
    ([calculateLandmarksBoundingBox]), the coordinate transform
    ([transformRawCoords]) and the per-frame driver ([estimateHands]); and of
    the frame skipping of the pose module that follows it in the same file.

    JavaScript numbers are IEEE 754 binary64 values; they are modelled by
    Rocq's primitive floats, which are the same format with the same
    rounding.  Counters and array lengths, which only ever hold small
    integers, are modelled by [Z]. *)

From Stdlib Require Import ZArith Floats Lia String.
From stdpp Require Import base list.

Set Warnings "-inexact-float".

Local Open Scope Z_scope.

(** ** JavaScript numbers *)

Module JS.

(** [a > b], [a >= b] of JavaScript: false as soon as one side is NaN. *)
Definition gt (a b : float) : bool := (b <? a)%float.
Definition ge (a b : float) : bool := (b <=? a)%float.

Definition is_neg_zero (x : float) : bool :=
  match classify x with NZero => true | _ => false end.
Definition is_pos_zero (x : float) : bool :=
  match classify x with PZero => true | _ => false end.

(** [Math.min(...xs)] (ECMA-262, 21.3.2.25): start from +Infinity, return NaN
    as soon as an argument is NaN, prefer -0 to +0, keep the smaller. *)
Fixpoint min_from (lowest : float) (xs : list float) : float :=
  match xs with
  | [] => lowest
  | x :: rest =>
      if is_nan x then nan
      else
        let lowest := if is_neg_zero x && is_pos_zero lowest then x else lowest in
        let lowest := if (x <? lowest)%float then x else lowest in
        min_from lowest rest
  end.

Definition Math_min (xs : list float) : float := min_from infinity xs.

(** [Math.max(...xs)] (ECMA-262, 21.3.2.24): start from -Infinity, NaN is
    contagious, prefer +0 to -0, keep the larger. *)
Fixpoint max_from (highest : float) (xs : list float) : float :=
  match xs with
  | [] => highest
  | x :: rest =>
      if is_nan x then nan
      else
        let highest := if is_pos_zero x && is_neg_zero highest then x else highest in
        let highest := if (highest <? x)%float then x else highest in
        max_from highest rest
  end.

Definition Math_max (xs : list float) : float := max_from neg_infinity xs.

End JS.

(** [x <= y] holds in JavaScript; [numbers xs]: no element of [xs] is NaN. *)
Definition fle (x y : float) : Prop := (x <=? y)%float = true.
Definition numbers (xs : list float) : Prop :=
  Forall (fun x => is_nan x = false) xs.

(** ** Data model *)

(** A point is a two-element array [[x, y]]; a landmark a three-element array
    [[x, y, depth]]. *)
Definition Point : Type := float * float.
Definition Coord : Type := float * float * float.

(** A box as the pipeline uses it.  A box without [palmLandmarks] carries the
    empty list: reading palm landmark 0 or 2 from it fails either way. *)
Record Box : Type := mkBox {
  startPoint : Point;
  endPoint : Point;
  palmLandmarks : list Point;
}.

(** The fields of a [HandPipeline] instance (the two detectors are
    collaborators, not data). *)
Record HandPipeline : Type := mkPipeline {
  inputSize : float;
  regionsOfInterest : list (option Box);
  runsWithoutHandDetector : Z;
  skipFrames : Z;
  detectedHands : Z;
}.

(** [new HandPipeline(boundingBoxDetector, meshDetector, inputSize)] *)
Definition constructor (size : float) : HandPipeline :=
  mkPipeline size [] 0 0 0.

Definition UPDATE_REGION_OF_INTEREST_IOU_THRESHOLD : float := 0.8%float.
Definition PALM_LANDMARK_IDS : list nat := [0; 5; 9; 13; 17; 1; 2]%nat.
Definition PALM_LANDMARKS_INDEX_OF_PALM_BASE : nat := 0.
Definition PALM_LANDMARKS_INDEX_OF_MIDDLE_FINGER_BASE : nat := 2.

(** ** calculateLandmarksBoundingBox (lines 166-172) *)

(** The method reads [d[0]] and [d[1]] of each landmark and is called both on
    two-element points and on three-element landmarks. *)
Class Landmark (A : Type) : Type := {
  coord0 : A -> float;
  coord1 : A -> float;
}.

#[export] Instance Point_Landmark : Landmark Point :=
  {| coord0 := fst; coord1 := snd |}.
#[export] Instance Coord_Landmark : Landmark Coord :=
  {| coord0 := fun d => fst (fst d); coord1 := fun d => snd (fst d) |}.

Definition calculateLandmarksBoundingBox {A : Type} `{Landmark A}
    (landmarks : list A) : Box :=
  let xs := map coord0 landmarks in
  let ys := map coord1 landmarks in
  let startPoint := (JS.Math_min xs, JS.Math_min ys) in
  let endPoint := (JS.Math_max xs, JS.Math_max ys) in
  mkBox startPoint endPoint [].

(** The Box invariant of the data model, with JavaScript's [<=]. *)
Definition boxInvariant (b : Box) : bool :=
  (fst (startPoint b) <=? fst (endPoint b))%float
  && (snd (startPoint b) <=? snd (endPoint b))%float.

(** ** updateRegionsOfInterest (lines 174-192) *)

(** The value the local [iou] receives inside the guarded block, lines
    178-189, for a new box and the slot's previous box. *)
Definition iou (newBox previousBox : Box) : float :=
  let '(boxStartX, boxStartY) := startPoint newBox in
  let '(boxEndX, boxEndY) := endPoint newBox in
  let '(previousBoxStartX, previousBoxStartY) := startPoint previousBox in
  let '(previousBoxEndX, previousBoxEndY) := endPoint previousBox in
  let xStartMax := JS.Math_max [boxStartX; previousBoxStartX] in
  let yStartMax := JS.Math_max [boxStartY; previousBoxStartY] in
  let xEndMin := JS.Math_min [boxEndX; previousBoxEndX] in
  let yEndMin := JS.Math_min [boxEndY; previousBoxEndY] in
  let intersection := ((xEndMin - xStartMax) * (yEndMin - yStartMax))%float in
  let boxArea := ((boxEndX - boxStartX) * (boxEndY - boxStartY))%float in
  let previousBoxArea :=
    ((previousBoxEndX - previousBoxStartX) * (previousBoxEndY - boxStartY))%float in
  (intersection / (boxArea + previousBoxArea - intersection))%float.

(** [this.regionsOfInterest[i]]: [undefined] out of range, and a hole or a
    null entry reads as no box. *)
Definition slot (regions : list (option Box)) (i : nat) : option Box :=
  mjoin (regions !! i).

(** [this.regionsOfInterest[i] = b]: in range the entry is overwritten; past
    the end the array grows, the skipped indices staying empty. *)
Definition setSlot (regions : list (option Box)) (i : nat) (b : option Box)
  : list (option Box) :=
  if decide (i < length regions)%nat then <[i := b]> regions
  else regions ++ replicate (i - length regions) None ++ [b].

Definition withRegions (st : HandPipeline) (regions : list (option Box))
  : HandPipeline :=
  mkPipeline (inputSize st) regions (runsWithoutHandDetector st)
             (skipFrames st) (detectedHands st).

Definition updateRegionsOfInterest (newBox : Box) (i : nat) (st : HandPipeline)
  : HandPipeline :=
  let previousBox := slot (regionsOfInterest st) i in
  let iou :=
    match previousBox with
    | Some previousBox => iou newBox previousBox
    | None => 0%float
    end in
  withRegions st
    (setSlot (regionsOfInterest st) i
       (if JS.gt iou UPDATE_REGION_OF_INTEREST_IOU_THRESHOLD
        then previousBox else Some newBox)).

(** The intersection-over-union of the specification: overlap area over union
    area, each box's area from its own corners, and 0 when the boxes do not
    overlap or a box has no positive area.  Used only for comparison with
    [iou]. *)
Definition boxAreaOf (b : Box) : float :=
  ((fst (endPoint b) - fst (startPoint b))
   * (snd (endPoint b) - snd (startPoint b)))%float.

Definition spec_iou (boxA boxB : Box) : float :=
  let w := (JS.Math_min [fst (endPoint boxA); fst (endPoint boxB)]
            - JS.Math_max [fst (startPoint boxA); fst (startPoint boxB)])%float in
  let h := (JS.Math_min [snd (endPoint boxA); snd (endPoint boxB)]
            - JS.Math_max [snd (startPoint boxA); snd (startPoint boxB)])%float in
  if JS.gt w 0 && JS.gt h 0 && JS.gt (boxAreaOf boxA) 0 && JS.gt (boxAreaOf boxB) 0
  then (w * h / (boxAreaOf boxA + boxAreaOf boxB - w * h))%float
  else 0%float.

(** ** Configuration, results and observable effects *)

Record Config : Type := mkConfig {
  cfg_skipFrames : Z;
  cfg_maxHands : Z;
  cfg_minConfidence : float;
}.

Record BoundingBox : Type := mkBoundingBox {
  topLeft : Point;
  bottomRight : Point;
}.

(** One entry of the array [estimateHands] returns. *)
Record Hand : Type := mkHand {
  landmarks : list Coord;
  handInViewConfidence : float;
  boundingBox : BoundingBox;
}.

(** What a call does to its collaborators: the bounding-box detector is run,
    the input image is disposed, the mesh detector is run for slot [i] and
    reports a confidence.  (Disposal of the intermediate tensors is not
    recorded.) *)
Inductive event : Type :=
  | EstimateHandBounds
  | DisposeImage
  | Predict (i : nat) (confidenceValue : float).

(** How a call ends: it returns [null] or an array of hands, or a TypeError
    escapes. *)
Inductive completion : Type :=
  | Return (hands : option (list Hand))
  | Throw.

(** Where a call stands when lines 89-110 are done. *)
Inductive reconciled : Type :=
  | NoHands (st : HandPipeline)
  | Track (useFreshBox : bool) (st : HandPipeline).

Record outcome : Type := mkOutcome {
  result : completion;
  after : HandPipeline;
  trace : list event;
}.

(** Modelled from the spec: the rotation matrix of util.js, "2x3 affine
    transform (rotation + translation)"; the pipeline reads rows 0 and 1. *)
Record Matrix : Type := mkMatrix {
  row0 : Coord;
  row1 : Coord;
}.

Definition PALM_BOX_SHIFT_VECTOR : Point := (0, -0.4)%float.
Definition PALM_BOX_ENLARGE_FACTOR : float := 3%float.
Definition HAND_BOX_SHIFT_VECTOR : Point := (0, -0.1)%float.
Definition HAND_BOX_ENLARGE_FACTOR : float := 1.65%float.

Definition withRuns (st : HandPipeline) (n : Z) : HandPipeline :=
  mkPipeline (inputSize st) (regionsOfInterest st) n (skipFrames st) (detectedHands st).
Definition withSkipFrames (st : HandPipeline) (n : Z) : HandPipeline :=
  mkPipeline (inputSize st) (regionsOfInterest st) (runsWithoutHandDetector st) n
             (detectedHands st).
Definition withDetectedHands (st : HandPipeline) (n : Z) : HandPipeline :=
  mkPipeline (inputSize st) (regionsOfInterest st) (runsWithoutHandDetector st)
             (skipFrames st) n.

(** ** The pipeline over its collaborators *)

(** What the pipeline calls and does not define: the helpers of util.js and
    box.js, the tensor operations of tfjs and the two detectors.  [Image] is
    the input tensor, [Tensor] the intermediate images made from it. *)
Class Collaborators (Image Tensor : Type) : Type := {
  (** [image.shape[k]] *)
  shape : Image -> nat -> float;
  (** util.js *)
  computeRotation : Point -> Point -> float;
  buildRotationMatrix : float -> Point -> Matrix;
  rotatePoint : Coord -> Matrix -> Point;
  invertTransformMatrix : Matrix -> Matrix;
  dot : Coord -> Coord -> float;
  (** box.js *)
  getBoxSize : Box -> Point;
  getBoxCenter : Box -> Point;
  enlargeBox : Box -> float -> Box;
  squarifyBox : Box -> Box;
  shiftBox : Box -> Point -> Box;
  cutBoxFromImageAndResize : Box -> Tensor -> Point -> Tensor;
  (** tfjs: [tf.image.rotateWithOffset] and [tensor.div] *)
  rotateWithOffset : Image -> float -> float -> Point -> Tensor;
  tensorDiv : Tensor -> float -> Tensor;
  (** [boundingBoxDetector.estimateHandBounds(image, config)], awaited: an
      array of boxes, or nothing. *)
  estimateHandBounds : Image -> Config -> option (list Box);
  (** [meshDetector.predict(handImage)]: the confidence read with
      [dataSync()[0]] and the keypoints reshaped to rows of three. *)
  predict : Tensor -> float * list Coord;
}.

Section Pipeline.

Context {Image Tensor : Type} `{Collaborators Image Tensor}.

(** lines 42-49 *)
Definition getBoxForPalmLandmarks (palm : list Point) (rotationMatrix : Matrix)
  : Box :=
  let rotatedPalmLandmarks :=
    map (fun coord : Point =>
           let homogeneousCoordinate := (fst coord, snd coord, 1%float) in
           rotatePoint homogeneousCoordinate rotationMatrix) palm in
  let boxAroundPalm := calculateLandmarksBoundingBox rotatedPalmLandmarks in
  enlargeBox (squarifyBox (shiftBox boxAroundPalm PALM_BOX_SHIFT_VECTOR))
             PALM_BOX_ENLARGE_FACTOR.

(** lines 51-60; [None] when [landmarks[id]] is undefined for a palm id, so
    that [.slice] raises a TypeError. *)
Definition getBoxForHandLandmarks (landmarks : list Coord) : option Box :=
  let boundingBox := calculateLandmarksBoundingBox landmarks in
  let boxAroundHand :=
    enlargeBox (squarifyBox (shiftBox boundingBox HAND_BOX_SHIFT_VECTOR))
               HAND_BOX_ENLARGE_FACTOR in
  palm ← mapM (fun id => (fun c : Coord => (fst (fst c), snd (fst c)))
                           <$> landmarks !! id) PALM_LANDMARK_IDS;
  Some (mkBox (startPoint boxAroundHand) (endPoint boxAroundHand) palm).

(** lines 62-86 *)
Definition transformRawCoords (st : HandPipeline) (rawCoords : list Coord)
    (box2 : Box) (angle : float) (rotationMatrix : Matrix) : list Coord :=
  let boxSize := getBoxSize box2 in
  let scaleFactor :=
    (fst boxSize / inputSize st, snd boxSize / inputSize st)%float in
  let coordsScaled :=
    map (fun coord : Coord =>
           let '(c0, c1, c2) := coord in
           ((fst scaleFactor * (c0 - inputSize st / 2))%float,
            (snd scaleFactor * (c1 - inputSize st / 2))%float,
            c2)) rawCoords in
  let coordsRotationMatrix := buildRotationMatrix angle (0, 0)%float in
  let coordsRotated :=
    map (fun coord : Coord =>
           let rotated := rotatePoint coord coordsRotationMatrix in
           (fst rotated, snd rotated, snd coord)) coordsScaled in
  let inverseRotationMatrix := invertTransformMatrix rotationMatrix in
  let center := getBoxCenter box2 in
  let boxCenter := (fst center, snd center, 1%float) in
  let originalBoxCenter :=
    (dot boxCenter (row0 inverseRotationMatrix),
     dot boxCenter (row1 inverseRotationMatrix)) in
  map (fun coord : Coord =>
         let '(c0, c1, c2) := coord in
         ((c0 + fst originalBoxCenter)%float,
          (c1 + snd originalBoxCenter)%float,
          c2)) coordsRotated.

(** One pass of the loop body, lines 113-159, for key [i].  The first
    component is [None] when a TypeError escapes, and otherwise the hand
    pushed in this pass, if any.  A TypeError escapes when the box has no palm
    landmark 0 or 2 for [util.computeRotation] to read, and when
    [getBoxForHandLandmarks] finds a palm id without landmark. *)
Definition iteration (useFreshBox : bool) (image : Image) (config : Config)
    (i : nat) (st : HandPipeline)
  : option (option Hand) * HandPipeline * list event :=
  match slot (regionsOfInterest st) i with
  | None => (Some None, st, [])
  | Some currentBox =>
      match palmLandmarks currentBox !! PALM_LANDMARKS_INDEX_OF_PALM_BASE,
            palmLandmarks currentBox !! PALM_LANDMARKS_INDEX_OF_MIDDLE_FINGER_BASE with
      | Some palmBase, Some middleFingerBase =>
          let angle := computeRotation palmBase middleFingerBase in
          let palmCenter := getBoxCenter currentBox in
          let palmCenterNormalized :=
            (fst palmCenter / shape image 2, snd palmCenter / shape image 1)%float in
          let rotatedImage := rotateWithOffset image angle 0%float palmCenterNormalized in
          let rotationMatrix := buildRotationMatrix (- angle)%float palmCenter in
          let newBox :=
            if useFreshBox
            then getBoxForPalmLandmarks (palmLandmarks currentBox) rotationMatrix
            else currentBox in
          let croppedInput :=
            cutBoxFromImageAndResize newBox rotatedImage (inputSize st, inputSize st) in
          let handImage := tensorDiv croppedInput 255%float in
          let '(confidenceValue, rawCoords) := predict handImage in
          if JS.ge confidenceValue (cfg_minConfidence config) then
            let coords := transformRawCoords st rawCoords newBox angle rotationMatrix in
            match getBoxForHandLandmarks coords with
            | None => (None, st, [Predict i confidenceValue])
            | Some nextBoundingBox =>
                (Some (Some (mkHand coords confidenceValue
                               (mkBoundingBox (startPoint nextBoundingBox)
                                              (endPoint nextBoundingBox)))),
                 updateRegionsOfInterest nextBoundingBox i st,
                 [Predict i confidenceValue])
            end
          else (Some None, st, [Predict i confidenceValue])
      | _, _ => (None, st, [])
      end
  end.

(** [for (const i in this.regionsOfInterest) { ... }], lines 111-160, over
    the keys of the array; the result is the array [hands]. *)
Fixpoint forRegions (useFreshBox : bool) (image : Image) (config : Config)
    (keys : list nat) (st : HandPipeline)
  : option (list Hand) * HandPipeline * list event :=
  match keys with
  | [] => (Some [], st, [])
  | i :: keys' =>
      match iteration useFreshBox image config i st with
      | (None, st', evs) => (None, st', evs)
      | (Some pushed, st', evs) =>
          let '(rest, st'', evs') := forRegions useFreshBox image config keys' st' in
          (app (option_list pushed) <$> rest, st'', evs ++ evs')
      end
  end.

(** Line 91: the first value of [useFreshBox]. *)
Definition needsFreshBox (st : HandPipeline) : bool :=
  (detectedHands st =? 0)
  || negb (detectedHands st =? Z.of_nat (length (regionsOfInterest st))).

(** Line 94: whether the bounding-box detector is run. *)
Definition runsDetector (st : HandPipeline) : bool :=
  needsFreshBox st || (skipFrames st <? runsWithoutHandDetector st).

(** Lines 89-110, the part of [estimateHands] before the loop: either the
    call is over ("no hands": the image is disposed and [null] returned), or
    the loop runs over the region list of the state given, with the final
    value of [useFreshBox]. *)
Definition reconcile (image : Image) (config : Config) (st : HandPipeline)
  : reconciled * list event :=
  let st := withSkipFrames st (cfg_skipFrames config) in
  let useFreshBox := needsFreshBox st in
  let detect := runsDetector st in
  let boundingBoxPredictions :=
    if detect then estimateHandBounds image config else None in
  let evs := if detect then [EstimateHandBounds] else [] in
  let useFreshBox :=
    if (1 <? cfg_maxHands config)
       && match boundingBoxPredictions with
          | Some ps => (0 <? Z.of_nat (length ps))
                       && negb (Z.of_nat (length ps) =? detectedHands st)
          | None => false
          end
    then true else useFreshBox in
  if useFreshBox then
    let st := withRegions st [] in
    match boundingBoxPredictions with
    | None | Some [] => (NoHands (withDetectedHands st 0), evs ++ [DisposeImage])
    | Some ps =>
        let st := withRegions st (Some <$> ps) in
        (Track useFreshBox (withRuns st 0), evs)
    end
  else (Track useFreshBox (withRuns st (runsWithoutHandDetector st + 1)), evs).

(** lines 88-163 *)
Definition estimateHands (image : Image) (config : Config) (st : HandPipeline)
  : outcome :=
  match reconcile image config st with
  | (NoHands st, evs) => mkOutcome (Return None) st evs
  | (Track useFreshBox st, evs) =>
      let '(hands, st, evs') :=
        forRegions useFreshBox image config
                   (seq 0 (length (regionsOfInterest st))) st in
      match hands with
      | Some hands =>
          mkOutcome (Return (Some hands))
                    (withDetectedHands st (Z.of_nat (length hands))) (evs ++ evs')
      | None => mkOutcome Throw st (evs ++ evs')
      end
  end.

(** Successive frames handed to the same pipeline instance, one call after
    the other; the outcome of every call, in order. *)
Fixpoint estimateHandsEach (frames : list (Image * Config)) (st : HandPipeline)
  : list outcome :=
  match frames with
  | [] => []
  | (image, config) :: frames' =>
      let o := estimateHands image config st in
      o :: estimateHandsEach frames' (after o)
  end.

End Pipeline.

(** Whether a call ran the bounding-box detector, and the confidences the mesh
    detector reported that were below the configured minimum. *)
Definition isEstimateHandBounds (e : event) : bool :=
  match e with EstimateHandBounds => true | _ => false end.

Definition invokedDetector (o : outcome) : bool :=
  existsb isEstimateHandBounds (trace o).

Definition isDropped (config : Config) (e : event) : bool :=
  match e with
  | Predict _ c => negb (JS.ge c (cfg_minConfidence config))
  | _ => false
  end.

Definition confidenceOf (e : event) : option float :=
  match e with Predict _ c => Some c | _ => None end.

(** The confidences the mesh detector reported during a call, in slot order,
    and those among them that meet the configured minimum. *)
Definition confidences (evs : list event) : list float := omap confidenceOf evs.

Definition meetingMinimum (config : Config) (cs : list float) : list float :=
  List.filter (fun c => JS.ge c (cfg_minConfidence config)) cs.

Definition droppedCount (config : Config) (evs : list event) : nat :=
  length (List.filter (isDropped config) evs).

(** ** A test bench

    Doubles for the collaborators, so that the driver can be run on concrete
    frames: a frame carries what the two detectors will answer for it, the
    hand is upright (rotation 0, identity matrices), and the box helpers
    follow the data model (size = end - start, centre = midpoint). *)

Module Bench.

Record Frame : Type := mkFrame {
  palms : option (list Box);
  confidence : float;
  keypoints : list Coord;
}.

Definition shape (_ : Frame) (_ : nat) : float := 640%float.
Definition computeRotation (_ _ : Point) : float := 0%float.
Definition identity : Matrix := mkMatrix (1, 0, 0)%float (0, 1, 0)%float.
Definition buildRotationMatrix (_ : float) (_ : Point) : Matrix := identity.
Definition invertTransformMatrix (m : Matrix) : Matrix := m.
Definition dot (v1 v2 : Coord) : float :=
  let '(a0, a1, a2) := v1 in
  let '(b0, b1, b2) := v2 in
  (0 + a0 * b0 + a1 * b1 + a2 * b2)%float.
Definition rotatePoint (c : Coord) (m : Matrix) : Point :=
  (dot c (row0 m), dot c (row1 m)).

Definition getBoxSize (b : Box) : Point :=
  ((fst (endPoint b) - fst (startPoint b))%float,
   (snd (endPoint b) - snd (startPoint b))%float).
Definition getBoxCenter (b : Box) : Point :=
  ((fst (startPoint b) + (fst (endPoint b) - fst (startPoint b)) / 2)%float,
   (snd (startPoint b) + (snd (endPoint b) - snd (startPoint b)) / 2)%float).
Definition aroundCenter (b : Box) (halfW halfH : float) : Box :=
  let c := getBoxCenter b in
  mkBox ((fst c - halfW)%float, (snd c - halfH)%float)
        ((fst c + halfW)%float, (snd c + halfH)%float) (palmLandmarks b).
Definition enlargeBox (b : Box) (factor : float) : Box :=
  let size := getBoxSize b in
  aroundCenter b (factor * fst size / 2)%float (factor * snd size / 2)%float.
Definition squarifyBox (b : Box) : Box :=
  let size := getBoxSize b in
  let side := JS.Math_max [fst size; snd size] in
  aroundCenter b (side / 2)%float (side / 2)%float.
Definition shiftBox (b : Box) (v : Point) : Box :=
  let size := getBoxSize b in
  let dx := (fst v * fst size)%float in
  let dy := (snd v * snd size)%float in
  mkBox ((fst (startPoint b) + dx)%float, (snd (startPoint b) + dy)%float)
        ((fst (endPoint b) + dx)%float, (snd (endPoint b) + dy)%float)
        (palmLandmarks b).

Definition cutBoxFromImageAndResize (_ : Box) (t : Frame) (_ : Point) : Frame := t.
Definition rotateWithOffset (f : Frame) (_ _ : float) (_ : Point) : Frame := f.
Definition tensorDiv (t : Frame) (_ : float) : Frame := t.
Definition estimateHandBounds (f : Frame) (_ : Config) : option (list Box) := palms f.
Definition predict (t : Frame) : float * list Coord := (confidence t, keypoints t).

#[global] Instance doubles : Collaborators Frame Frame :=
  Build_Collaborators Frame Frame shape computeRotation buildRotationMatrix
    rotatePoint invertTransformMatrix dot getBoxSize getBoxCenter enlargeBox
    squarifyBox shiftBox cutBoxFromImageAndResize rotateWithOffset tensorDiv
    estimateHandBounds predict.

(** Twenty-one keypoints in the 256 x 256 input space of the mesh model. *)
Definition hand21 : list Coord :=
  [ (128, 230, 0); (100, 210, -2); (80, 185, -4); (66, 160, -6); (55, 140, -8);
    (105, 140, -1); (98, 105, -3); (94, 82, -5); (91, 62, -7);
    (128, 134, 0); (128, 96, -2); (128, 70, -4); (128, 48, -6);
    (150, 140, 1); (156, 106, -1); (160, 84, -3); (163, 66, -5);
    (170, 152, 2); (182, 128, 0); (190, 112, -2); (196, 98, -4) ]%float.

Definition palmBox (x0 y0 x1 y1 : float) : Box :=
  mkBox (x0, y0) (x1, y1)
    [ ((x0 + x1) / 2, y1); (x0, (y0 + y1) / 2); ((x0 + x1) / 2, y0);
      (x1, (y0 + y1) / 2); (x1, y1); (x0, y1); (x0, y0) ]%float.

Definition oneHand : Frame :=
  mkFrame (Some [palmBox 10 10 50 50]) 0.9%float hand21.
Definition twoPalms : Frame :=
  mkFrame (Some [palmBox 10 10 50 50; palmBox 200 200 260 260]) 0.9%float hand21.
Definition noPalm : Frame := mkFrame (Some []) 0.9%float hand21.
Definition faintHand : Frame :=
  mkFrame (Some [palmBox 10 10 50 50]) 0.2%float hand21.

Definition config (skip maxHands : Z) : Config := mkConfig skip maxHands 0.5%float.

(** Boxes for the IoU gate: a 10 x 10 square, the same square with its top
    edge lowered by 2 and by 1.5, and a unit square apart from another. *)
Definition square10 : Box := mkBox (0, 0)%float (10, 10)%float [].
Definition lowered2 : Box := mkBox (0, 2)%float (10, 10)%float [].
Definition lowered1_5 : Box := mkBox (0, 1.5)%float (10, 10)%float [].
Definition unitSquare : Box := mkBox (0, 0)%float (1, 1)%float [].
Definition farSquare : Box := mkBox (2, 2)%float (3, 3)%float [].
Definition tracking (b : Box) : HandPipeline :=
  mkPipeline 256%float [Some b] 0 0 1.

(** A pipeline that tracks one hand and whose counter has passed
    [skipFrames = 5]; and a frame whose mesh prediction has too few keypoints
    for [getBoxForHandLandmarks]. *)
Definition overdue : HandPipeline :=
  mkPipeline 256%float [Some (palmBox 10 10 50 50)] 6 5 1.
Definition shortHand : Frame :=
  mkFrame (Some [palmBox 10 10 50 50]) 0.9%float (take 5 hand21).

(** Two boxes of zero area with the same corners; a palm landmark tells the
    stored one from the new one. *)
Definition pointBox : Box := mkBox (5, 5)%float (5, 5)%float [].
Definition storedPointBox : Box := mkBox (5, 5)%float (5, 5)%float [(5, 5)%float].

Definition fresh : HandPipeline := constructor 256%float.

(** A pipeline that tracks one region but reported no hand on its last
    frame. *)
Definition lostHand : HandPipeline :=
  mkPipeline 256%float [Some (palmBox 10 10 50 50)] 3 5 0.

End Bench.

(** ** The frame skipping of the pose module

    The second module of the file, [predict] of EfficientPose, lines 229-233:
    while [skipped < config.body.skipFrames] (and caching is on and the cache
    holds keypoints) it answers from the cache and counts the frame; otherwise
    it sets [skipped] to 0 and runs the model.  [found] is the number of
    keypoints the model run leaves in the cache, [None] when the model gives
    no result and the cache is left as it was. *)

Module EfficientPose.

Record Cache : Type := mkCache {
  skipped : Z;
  keypoints : nat;
}.

Definition MAX_SAFE_INTEGER : Z := 9007199254740991.

Definition initial : Cache := mkCache MAX_SAFE_INTEGER 0.

(** The result is whether the call went past the cache, to the model, with the
    cache afterwards. *)
Definition predict (skipFrames : Z) (skipFrame : bool) (found : option nat)
    (c : Cache) : bool * Cache :=
  if (skipped c <? skipFrames) && skipFrame && (0 <? Z.of_nat (keypoints c))
  then (false, mkCache (skipped c + 1) (keypoints c))
  else (true, mkCache 0 (default (keypoints c) found)).

Fixpoint predictEach (skipFrames : Z) (skipFrame : bool) (found : list (option nat))
    (c : Cache) : list bool :=
  match found with
  | [] => []
  | f :: found' =>
      let '(ran, c') := predict skipFrames skipFrame f c in
      ran :: predictEach skipFrames skipFrame found' c'
  end.

End EfficientPose.

(** ** The pose module in full

    [predict] of EfficientPose (lines 228-288 of the file) with the module
    variables it keeps between calls.  [Math.round] is a parameter; the tensor
    pipeline is reduced to what it delivers: the rows [res[0][0]] of the model
    output, each [[y, x, score]], or nothing.  A body returned holds the
    module's [keypoints] array itself; the model gives its content when the
    call returns. *)

Module Pose.

Record Keypoint : Type := mkKeypoint {
  score : float;
  part : option string;
  positionRaw : Point;
  position : Point;
}.

Definition Rect : Type := float * float * float * float.

Record Body : Type := mkBody {
  id : Z;
  body_score : float;
  body_box : Rect;
  body_boxRaw : Rect;
  body_keypoints : list Keypoint;
}.

(** The module variables [keypoints], [box], [boxRaw], [score], [skipped]. *)
Record State : Type := mkState {
  keypoints : list Keypoint;
  box : Rect;
  boxRaw : Rect;
  moduleScore : float;
  skipped : Z;
}.

Definition initial : State :=
  mkState [] (0, 0, 0, 0)%float (0, 0, 0, 0)%float 0%float
          EfficientPose.MAX_SAFE_INTEGER.

Definition bodyParts : list string :=
  [ "nose"; "leftEye"; "rightEye"; "leftEar"; "rightEar"; "leftShoulder";
    "rightShoulder"; "leftElbow"; "rightElbow"; "leftWrist"; "rightWrist";
    "leftHip"; "rightHip"; "leftKnee"; "rightKnee"; "leftAnkle";
    "rightAnkle" ]%string.

(** [config.skipFrame] and [config.body]. *)
Record Config : Type := mkConfig {
  skipFrame : bool;
  enabled : bool;
  skipFrames : Z;
  minConfidence : float;
}.

(** A row [kpt[id]] of the model output: [[y, x, score]]. *)
Definition Row : Type := float * float * float.

Section Predict.

Variable Math_round : float -> float.

(** Line 229: the call answers from the module variables. *)
Definition cached (config : Config) (st : State) : bool :=
  (skipped st <? skipFrames config) && skipFrame config
  && (0 <? Z.of_nat (length (keypoints st))).

(** [[{ id: 0, score, box, boxRaw, keypoints }]] *)
Definition body (st : State) : Body :=
  mkBody 0 (moduleScore st) (box st) (boxRaw st) (keypoints st).

(** Lines 251-267: the rows whose score is above the minimum, as keypoints;
    [shape1] and [shape2] are [image.shape[1]] and [image.shape[2]]. *)
Fixpoint extract (config : Config) (shape1 shape2 : float) (id0 : nat)
    (kpt : list Row) : list Keypoint :=
  match kpt with
  | [] => []
  | (r0, r1, r2) :: rest =>
      let tail := extract config shape1 shape2 (S id0) rest in
      if JS.gt r2 (minConfidence config)
      then mkKeypoint (Math_round (100 * r2) / 100)%float (bodyParts !! id0)
                      (r1, r0)
                      (Math_round (shape2 * r1)%float, Math_round (shape1 * r0)%float)
           :: tail
      else tail
  end.

(** Line 269 *)
Definition bestScore (kps : list Keypoint) : float :=
  fold_left (fun prev curr => if JS.gt (score curr) prev then score curr else prev)
            kps 0%float.

(** Lines 270-285: [[min x, min y, max x - min x, max y - min y]] *)
Definition rectOf (pts : list Point) : Rect :=
  let x := map fst pts in
  let y := map snd pts in
  (JS.Math_min x, JS.Math_min y,
   (JS.Math_max x - JS.Math_min x)%float, (JS.Math_max y - JS.Math_min y)%float).

(** Lines 228-288.  [output] is what [model.predict] gives, asked for only
    when the body model is enabled.  The result says whether the call went to
    the model, with the body returned and the module variables afterwards. *)
Definition predict (shape1 shape2 : float) (output : option (list Row))
    (config : Config) (st : State) : bool * Body * State :=
  if cached config st then
    let st := mkState (keypoints st) (box st) (boxRaw st) (moduleScore st)
                      (skipped st + 1) in
    (false, body st, st)
  else
    let resT := if enabled config then output else None in
    let kps :=
      match resT with
      | Some kpt => extract config shape1 shape2 0 kpt
      | None => keypoints st
      end in
    let st := mkState kps (rectOf (map position kps)) (rectOf (map positionRaw kps))
                      (bestScore kps) 0 in
    (true, body st, st).

(** Successive calls on the same module. *)
Fixpoint predictEach (frames : list (float * float * option (list Row)))
    (config : Config) (st : State) : list (bool * Body) :=
  match frames with
  | [] => []
  | (shape1, shape2, output) :: frames' =>
      let '(ran, b, st') := predict shape1 shape2 output config st in
      (ran, b) :: predictEach frames' config st'
  end.

Fixpoint stateAfter (frames : list (float * float * option (list Row)))
    (config : Config) (st : State) : State :=
  match frames with
  | [] => st
  | (shape1, shape2, output) :: frames' =>
      stateAfter frames' config (snd (predict shape1 shape2 output config st))
  end.

End Predict.

(** For the runs below: [Math.round] on whole numbers, the only numbers those
    runs round (a score of 1, and positions on a 640 x 480 image that fall on
    whole pixels). *)
Definition roundWhole (x : float) : float := x.

Definition skipTwo : Config := mkConfig true true 2 0.3%float.
Definition disabled : Config := mkConfig true false 2 0.3%float.
Definition oneAbove : list Row := [(0.5, 0.25, 1); (0.5, 0.5, 0.1)]%float.
Definition noneAbove : list Row := [(0.5, 0.5, 0.1); (0.25, 0.5, 0.3)]%float.
Definition frame (output : list Row) : float * float * option (list Row) :=
  (480%float, 640%float, Some output).

(** The module after a first call that found the nose, and after two more
    calls answered from the module variables. *)
Definition found : State :=
  snd (predict roundWhole 480 640 (Some oneAbove) skipTwo initial).
Definition due : State :=
  mkState (keypoints found) (box found) (boxRaw found) (moduleScore found) 2.

End Pose.

(** ** Drawing primitives (src/draw/primitives.ts)

    [lines] and [curves] over a canvas context that records the style
    properties they set and, in order, the path methods they call.
    [colorDepth] builds its string from [Math.trunc] and number formatting and
    is a parameter here, as is [Math.round]. *)

Module Draw.

(** A point of result.ts: [[x, y]] or [[x, y, z]]. *)
Definition Point3 : Type := float * float * option float.

Inductive call : Type :=
  | BeginPath
  | MoveTo (x y : float)
  | LineTo (x y : float)
  | QuadraticCurveTo (cpx cpy x y : float)
  | ClosePath
  | Stroke
  | Fill.

Record Context : Type := mkContext {
  ctx_lineWidth : float;
  strokeStyle : string;
  fillStyle : string;
  calls : list call;
}.

(** The fields of [DrawOptions] the two functions read. *)
Record DrawOptions : Type := mkOptions {
  color : string;
  useDepth : bool;
  lineWidth : float;
  useCurves : bool;
  fillPolygons : bool;
}.

Definition invoke (c : call) (ctx : Context) : Context :=
  mkContext (ctx_lineWidth ctx) (strokeStyle ctx) (fillStyle ctx) (calls ctx ++ [c]).
Definition setStrokeStyle (s : string) (ctx : Context) : Context :=
  mkContext (ctx_lineWidth ctx) s (fillStyle ctx) (calls ctx).
Definition setFillStyle (s : string) (ctx : Context) : Context :=
  mkContext (ctx_lineWidth ctx) (strokeStyle ctx) s (calls ctx).
Definition setLineWidth (w : float) (ctx : Context) : Context :=
  mkContext w (strokeStyle ctx) (fillStyle ctx) (calls ctx).

(** A number in a condition: 0, -0 and NaN are false. *)
Definition truthy (x : float) : bool := negb (is_zero x || is_nan x).

(** [z || 0] for a [z] that may be undefined. *)
Definition orZero (z : option float) : float :=
  match z with
  | Some z => if truthy z then z else 0%float
  | None => 0%float
  end.

Section Primitives.

Variable colorDepth : float -> bool * bool * bool -> string.
Variable Math_round : float -> float.

(** The style line 61 and line 62 compute for a point. *)
Definition styleOf (localOptions : DrawOptions) (pt : Point3) : string :=
  let z := orZero (snd pt) in
  if useDepth localOptions && negb (z =? 0)%float
  then colorDepth z (true, true, false) else color localOptions.

(** One pass of the loop of lines 59-64. *)
Definition lineTo (localOptions : DrawOptions) (ctx : Context) (pt : Point3)
  : Context :=
  let ctx := setStrokeStyle (styleOf localOptions pt) ctx in
  let ctx := setFillStyle (styleOf localOptions pt) ctx in
  invoke (LineTo (fst (fst pt)) (Math_round (snd (fst pt)))) ctx.

(** lines 55-70 *)
Definition lines (ctx : Context) (points : list Point3) (localOptions : DrawOptions)
  : Context :=
  match points with
  | [] | [_] => ctx
  | first :: _ =>
      let ctx := invoke BeginPath ctx in
      let ctx := invoke (MoveTo (fst (fst first)) (snd (fst first))) ctx in
      let ctx := fold_left (lineTo localOptions) points ctx in
      let ctx := invoke Stroke ctx in
      if fillPolygons localOptions then invoke Fill (invoke ClosePath ctx) else ctx
  end.

(** The loop of lines 80-84: for every [i < points.length - 2] a curve with
    control point [points[i]] to the midpoint of [points[i]] and
    [points[i + 1]]. *)
Fixpoint midpointCurves (points : list Point3) : list call :=
  match points with
  | a :: (b :: _ :: _) as rest =>
      QuadraticCurveTo (fst (fst a)) (snd (fst a))
                       ((fst (fst a) + fst (fst b)) / 2)%float
                       ((snd (fst a) + snd (fst b)) / 2)%float
      :: midpointCurves rest
  | _ => []
  end.

(** Line 85: the curve from the last but one point to the last. *)
Fixpoint lastCurve (points : list Point3) : list call :=
  match points with
  | [a; b] =>
      [QuadraticCurveTo (fst (fst a)) (snd (fst a)) (fst (fst b)) (snd (fst b))]
  | _ :: rest => lastCurve rest
  | [] => []
  end.

(** lines 72-91 *)
Definition curves (ctx : Context) (points : list Point3) (localOptions : DrawOptions)
  : Context :=
  match points with
  | [] | [_] => ctx
  | first :: _ =>
      let ctx := setLineWidth (lineWidth localOptions) ctx in
      if negb (useCurves localOptions) || (length points <=? 2)%nat
      then lines ctx points localOptions
      else
        let ctx := invoke (MoveTo (fst (fst first)) (snd (fst first))) ctx in
        let ctx := fold_left (fun ctx c => invoke c ctx)
                             (midpointCurves points ++ lastCurve points) ctx in
        let ctx := invoke Stroke ctx in
        if fillPolygons localOptions then invoke Fill (invoke ClosePath ctx) else ctx
  end.

End Primitives.

(** For the runs below: doubles for the two parameters, and three points of
    which only the middle one has a depth. *)
Definition depthColor (z : float) (_ : bool * bool * bool) : string :=
  if (z <? 0)%float then "near"%string else "far"%string.
Definition roundWhole (x : float) : float := x.
Definition blank : Context := mkContext 1%float "black"%string "black"%string [].
Definition plain : DrawOptions := mkOptions "white"%string true 2%float false false.
Definition curved : DrawOptions := mkOptions "white"%string true 2%float true true.
Definition triangle : list Point3 :=
  [ (0, 0, None); (10, 0, Some (-3)); (10, 10, Some 0) ]%float.

End Draw.

(** * Properties *)

(** ** The order of binary64 numbers

    [<=] and [<] on floats through their specification ([SFcompare]): on
    numbers that are not NaN they form a total preorder. *)

Section FloatOrder.

Local Open Scope float_scope.

Lemma SFcompare_refl (a : spec_float) :
  a <> S754_nan -> SFcompare a a = Some Eq.
Proof.
  destruct a as [s|s| |s m e]; simpl; try congruence; intros _.
  - destruct s; reflexivity.
  - rewrite Z.compare_refl, Pos.compare_cont_refl. destruct s; reflexivity.
Qed.

Lemma SFcompare_antisym (a b : spec_float) :
  SFcompare b a = CompOpp <$> SFcompare a b.
Proof.
  destruct a as [s|s| |s m e], b as [s'|s'| |s' m' e']; simpl;
    try reflexivity; try (destruct s; reflexivity);
    try (destruct s'; reflexivity); try (destruct s, s'; reflexivity).
  rewrite (Z.compare_antisym e e').
  destruct s, s'; simpl; try reflexivity;
    destruct (e ?= e')%Z; simpl; try reflexivity;
    rewrite ?CompOpp_involutive, Pos.compare_cont_antisym; reflexivity.
Qed.

Lemma SFleb_trans (a b c : spec_float) :
  SFleb a b = true -> SFleb b c = true -> SFleb a c = true.
Proof.
  unfold SFleb.
  destruct a as [s1|s1| |s1 m1 e1], b as [s2|s2| |s2 m2 e2],
           c as [s3|s3| |s3 m3 e3]; simpl; try congruence;
    try (destruct s1; simpl; congruence);
    try (destruct s2; simpl; congruence);
    try (destruct s3; simpl; congruence);
    try (destruct s1, s2; simpl; congruence);
    try (destruct s1, s3; simpl; congruence);
    try (destruct s2, s3; simpl; congruence);
    try (destruct s1, s2, s3; simpl; congruence).
  change (Pos.compare_cont Eq) with Pos.compare.
  destruct s1, s2, s3; simpl; try congruence;
    destruct (Z.compare_spec e1 e2), (Z.compare_spec e2 e3),
             (Z.compare_spec e1 e3);
    subst; try lia; try congruence;
    destruct (Pos.compare_spec m1 m2), (Pos.compare_spec m2 m3),
             (Pos.compare_spec m1 m3);
    subst; simpl; try lia; congruence.
Qed.

Lemma not_nan_spec (x : float) : is_nan x = false -> Prim2SF x <> S754_nan.
Proof.
  unfold is_nan. rewrite FloatAxioms.eqb_spec. intros H E. rewrite E in H. discriminate.
Qed.

Lemma fle_refl (x : float) : is_nan x = false -> fle x x.
Proof.
  intros H. unfold fle. rewrite FloatAxioms.leb_spec. unfold SFleb.
  now rewrite SFcompare_refl by now apply not_nan_spec.
Qed.

Lemma fle_trans (x y z : float) : fle x y -> fle y z -> fle x z.
Proof. unfold fle. rewrite !FloatAxioms.leb_spec. apply SFleb_trans. Qed.

Lemma ltb_fle (x y : float) : (x <? y) = true -> fle x y.
Proof.
  unfold fle. rewrite FloatAxioms.ltb_spec, FloatAxioms.leb_spec. unfold SFltb, SFleb.
  destruct (SFcompare _ _) as [[]|]; congruence.
Qed.

Lemma SFcompare_not_nan (a b : spec_float) :
  a <> S754_nan -> b <> S754_nan -> exists c, SFcompare a b = Some c.
Proof. destruct a, b; simpl; try congruence; eauto. Qed.

Lemma nltb_fle (x y : float) :
  is_nan x = false -> is_nan y = false -> (x <? y) = false -> fle y x.
Proof.
  intros Hx%not_nan_spec Hy%not_nan_spec.
  unfold fle. rewrite FloatAxioms.ltb_spec, FloatAxioms.leb_spec. unfold SFltb, SFleb.
  rewrite (SFcompare_antisym (Prim2SF x) (Prim2SF y)).
  destruct (SFcompare_not_nan _ _ Hx Hy) as [c ->]. destruct c; simpl; congruence.
Qed.

Lemma zeros_fle (x y : float) :
  JS.is_neg_zero x = true -> JS.is_pos_zero y = true -> fle x y /\ fle y x.
Proof.
  unfold JS.is_neg_zero, JS.is_pos_zero, fle.
  rewrite !FloatAxioms.classify_spec, !FloatAxioms.leb_spec. unfold SF64classify, SFclassify.
  destruct (Prim2SF x) as [[]|[]| |[] m e], (Prim2SF y) as [[]|[]| |[] m' e'];
    try discriminate; try (now split);
    repeat match goal with |- context [if ?c then _ else _] => destruct c end;
    discriminate.
Qed.

End FloatOrder.

(** ** Math.min and Math.max on numbers *)

Section MinMax.

Local Open Scope float_scope.

Lemma min_step (x lowest : float) :
  is_nan x = false -> is_nan lowest = false ->
  let l1 := if JS.is_neg_zero x && JS.is_pos_zero lowest then x else lowest in
  let l2 := if x <? l1 then x else l1 in
  is_nan l2 = false /\ fle l2 lowest /\ fle l2 x.
Proof.
  intros Hx Hl. cbv zeta.
  destruct (JS.is_neg_zero x && JS.is_pos_zero lowest) eqn:Hz.
  - apply andb_prop in Hz as [Hn Hp].
    destruct (zeros_fle x lowest Hn Hp) as [H1 _].
    destruct (x <? x); auto using fle_refl.
  - destruct (x <? lowest) eqn:Hlt.
    + auto using fle_refl, ltb_fle.
    + auto using fle_refl, nltb_fle.
Qed.

Lemma max_step (x highest : float) :
  is_nan x = false -> is_nan highest = false ->
  let h1 := if JS.is_pos_zero x && JS.is_neg_zero highest then x else highest in
  let h2 := if h1 <? x then x else h1 in
  is_nan h2 = false /\ fle highest h2 /\ fle x h2.
Proof.
  intros Hx Hh. cbv zeta.
  destruct (JS.is_pos_zero x && JS.is_neg_zero highest) eqn:Hz.
  - apply andb_prop in Hz as [Hp Hn].
    destruct (zeros_fle highest x Hn Hp) as [H1 _].
    destruct (x <? x); auto using fle_refl.
  - destruct (highest <? x) eqn:Hlt.
    + auto using fle_refl, ltb_fle.
    + auto using fle_refl, nltb_fle.
Qed.

Lemma min_from_below (xs : list float) :
  numbers xs -> forall lowest, is_nan lowest = false ->
  fle (JS.min_from lowest xs) lowest
  /\ Forall (fle (JS.min_from lowest xs)) xs.
Proof.
  induction 1 as [|x xs Hx Hxs IH]; intros lowest Hl; simpl.
  - split; [now apply fle_refl | constructor].
  - rewrite Hx.
    destruct (min_step x lowest Hx Hl) as (Hn & Hlow & Hhead).
    destruct (IH _ Hn) as [Hle Hall].
    split; [eauto using fle_trans|].
    constructor; eauto using fle_trans.
Qed.

Lemma max_from_above (xs : list float) :
  numbers xs -> forall highest, is_nan highest = false ->
  fle highest (JS.max_from highest xs)
  /\ Forall (fun x => fle x (JS.max_from highest xs)) xs.
Proof.
  induction 1 as [|x xs Hx Hxs IH]; intros highest Hh; simpl.
  - split; [now apply fle_refl | constructor].
  - rewrite Hx.
    destruct (max_step x highest Hx Hh) as (Hn & Hhigh & Hhead).
    destruct (IH _ Hn) as [Hle Hall].
    split; [eauto using fle_trans|].
    constructor; eauto using fle_trans.
Qed.

(** On a non-empty array of numbers, [Math.min(...xs) <= Math.max(...xs)]. *)
Lemma Math_min_le_max (xs : list float) :
  xs <> [] -> numbers xs -> fle (JS.Math_min xs) (JS.Math_max xs).
Proof.
  intros Hne Hxs. destruct xs as [|x xs]; [congruence|].
  destruct (min_from_below (x :: xs) Hxs infinity eq_refl) as [_ Hmin].
  destruct (max_from_above (x :: xs) Hxs neg_infinity eq_refl) as [_ Hmax].
  apply Forall_inv in Hmin, Hmax.
  exact (fle_trans _ _ _ Hmin Hmax).
Qed.

End MinMax.

(** ** The landmark bounding box *)

(** C9, as amended: for every non-empty list of landmarks whose x and y
    coordinates are numbers (none is NaN), the box returned by
    [calculateLandmarksBoundingBox] has [startPoint <= endPoint] in both
    components. *)
Theorem calculateLandmarksBoundingBox_invariant
    {A : Type} `{Landmark A} (landmarks : list A) :
  landmarks <> [] ->
  numbers (map coord0 landmarks) ->
  numbers (map coord1 landmarks) ->
  boxInvariant (calculateLandmarksBoundingBox landmarks) = true.
Proof.
  intros Hne Hxs Hys. unfold boxInvariant, calculateLandmarksBoundingBox; simpl.
  apply andb_true_intro; split; apply Math_min_le_max; trivial;
    destruct landmarks; simpl; congruence.
Qed.

Lemma calculateLandmarksBoundingBox_invariant_witness :
  boxInvariant (calculateLandmarksBoundingBox Bench.hand21) = true.
Proof.
  apply (calculateLandmarksBoundingBox_invariant Bench.hand21).
  - discriminate.
  - repeat constructor.
  - repeat constructor.
Defined.

(** C9 as stated fails on the empty list: [Math.min()] is +Infinity and
    [Math.max()] is -Infinity, so the box starts after it ends. *)
Lemma calculateLandmarksBoundingBox_empty :
  calculateLandmarksBoundingBox (@nil Coord)
  = mkBox (infinity, infinity) (neg_infinity, neg_infinity) []
  /\ boxInvariant (calculateLandmarksBoundingBox (@nil Coord)) = false.
Proof. split; reflexivity. Qed.

(** ** The IoU gate *)

(** C1: the value [updateRegionsOfInterest] computes is not the symmetric
    intersection over union.  It is 1 for the 10 x 10 square against itself,
    but for that square as new box and the same
    square with its top edge lowered by 2 as previous box it is 80/120, where
    intersection over union is 80/100; with the two boxes exchanged it is 1;
    and for two unit squares that do not overlap it is 1/3, not 0. *)
Theorem iou_previous_area_uses_new_box_start :
  iou Bench.square10 Bench.square10 = 1%float
  /\ iou Bench.square10 Bench.lowered2 = (80 / 120)%float
  /\ spec_iou Bench.square10 Bench.lowered2 = (80 / 100)%float
  /\ iou Bench.lowered2 Bench.square10 = 1%float
  /\ iou Bench.unitSquare Bench.farSquare = (1 / 3)%float
  /\ spec_iou Bench.unitSquare Bench.farSquare = 0%float.
Proof. repeat split; vm_compute; reflexivity. Qed.

Lemma slot_Some (regions : list (option Box)) (i : nat) (b : Box) :
  slot regions i = Some b <-> regions !! i = Some (Some b).
Proof.
  unfold slot. destruct (regions !! i) as [[b'|]|]; simpl; split; congruence.
Qed.

Lemma slot_lt (regions : list (option Box)) (i : nat) (b : Box) :
  slot regions i = Some b -> (i < length regions)%nat.
Proof. rewrite slot_Some. apply lookup_lt_Some. Qed.

Lemma setSlot_in_range (regions : list (option Box)) (i : nat) (b : option Box) :
  (i < length regions)%nat -> setSlot regions i b = <[i := b]> regions.
Proof. intros Hi. unfold setSlot. now rewrite decide_True. Qed.

(** The gate on the computed value: when slot [i] holds a previous box,
    [updateRegionsOfInterest newBox i] stores in slot [i] the previous box
    itself if the value [iou] computes for the new and the previous box exceeds
    0.8, and the new box otherwise; no other slot and no other field changes. *)
Lemma updateRegionsOfInterest_gate
    (newBox previousBox : Box) (i : nat) (st : HandPipeline) :
  slot (regionsOfInterest st) i = Some previousBox ->
  UPDATE_REGION_OF_INTEREST_IOU_THRESHOLD = 0.8%float
  /\ slot (regionsOfInterest (updateRegionsOfInterest newBox i st)) i
     = Some (if JS.gt (iou newBox previousBox) 0.8%float
             then previousBox else newBox)
  /\ updateRegionsOfInterest newBox i st
     = withRegions st
         (<[i := Some (if JS.gt (iou newBox previousBox) 0.8%float
                       then previousBox else newBox)]> (regionsOfInterest st)).
Proof.
  intros Hprev. pose proof (slot_lt _ _ _ Hprev) as Hi.
  assert (Hupd : updateRegionsOfInterest newBox i st
     = withRegions st
         (<[i := Some (if JS.gt (iou newBox previousBox) 0.8%float
                       then previousBox else newBox)]> (regionsOfInterest st))).
  { unfold updateRegionsOfInterest. rewrite Hprev, setSlot_in_range by exact Hi.
    change UPDATE_REGION_OF_INTEREST_IOU_THRESHOLD with 0.8%float.
    now destruct (JS.gt (iou newBox previousBox) 0.8). }
  split; [reflexivity|]. split; [|exact Hupd].
  rewrite Hupd. simpl. apply slot_Some. now apply list_lookup_insert_eq.
Qed.

Lemma updateRegionsOfInterest_gate_example :
  slot (regionsOfInterest
          (updateRegionsOfInterest Bench.lowered2 0 (Bench.tracking Bench.square10))) 0
  = Some Bench.square10
  /\ slot (regionsOfInterest
             (updateRegionsOfInterest Bench.square10 0 (Bench.tracking Bench.lowered2))) 0
     = Some Bench.square10.
Proof.
  split.
  - exact (proj1 (proj2 (updateRegionsOfInterest_gate
                           Bench.lowered2 Bench.square10 0
                           (Bench.tracking Bench.square10) eq_refl))).
  - exact (proj1 (proj2 (updateRegionsOfInterest_gate
                           Bench.square10 Bench.lowered2 0
                           (Bench.tracking Bench.lowered2) eq_refl))).
Defined.

(** ** The pipeline, for any collaborators *)

Section PipelineFacts.

Context {Image Tensor : Type} `{Collaborators Image Tensor}.

(** C7: [transformRawCoords] returns one landmark per raw keypoint, and the
    third (depth) component of each is that of the raw keypoint, whatever the
    box, the angle and the matrices; only x and y are transformed. *)
Theorem transformRawCoords_keeps_depth
    (st : HandPipeline) (rawCoords : list Coord) (box2 : Box) (angle : float)
    (rotationMatrix : Matrix) :
  map snd (transformRawCoords st rawCoords box2 angle rotationMatrix)
  = map snd rawCoords.
Proof.
  unfold transformRawCoords. rewrite !map_map.
  apply map_ext. intros [[c0 c1] c2]. reflexivity.
Qed.

(** *** One pass of the loop *)

Lemma iteration_cases (useFreshBox : bool) (image : Image) (config : Config)
    (i : nat) (st : HandPipeline) :
  let '(r, st', evs) := iteration useFreshBox image config i st in
  (slot (regionsOfInterest st) i = None
   /\ r = Some None /\ st' = st /\ evs = [])
  \/ (exists c, is_Some (slot (regionsOfInterest st) i)
        /\ JS.ge c (cfg_minConfidence config) = false
        /\ r = Some None /\ st' = st /\ evs = [Predict i c])
  \/ (exists c h nextBoundingBox, is_Some (slot (regionsOfInterest st) i)
        /\ JS.ge c (cfg_minConfidence config) = true
        /\ handInViewConfidence h = c
        /\ r = Some (Some h)
        /\ st' = updateRegionsOfInterest nextBoundingBox i st
        /\ evs = [Predict i c])
  \/ (is_Some (slot (regionsOfInterest st) i)
      /\ r = None /\ st' = st
      /\ (evs = [] \/ exists c, JS.ge c (cfg_minConfidence config) = true
                                /\ evs = [Predict i c])).
Proof.
  unfold iteration.
  destruct (slot (regionsOfInterest st) i) as [currentBox|] eqn:Hslot;
    [|left; auto].
  assert (Hsome : is_Some (Some currentBox)) by eauto.
  destruct (palmLandmarks currentBox !! PALM_LANDMARKS_INDEX_OF_PALM_BASE)
    as [palmBase|];
    [|right; right; right; auto].
  destruct (palmLandmarks currentBox !! PALM_LANDMARKS_INDEX_OF_MIDDLE_FINGER_BASE)
    as [middleFingerBase|];
    [|right; right; right; auto].
  cbv zeta.
  destruct (predict _) as [confidenceValue rawCoords].
  destruct (JS.ge confidenceValue (cfg_minConfidence config)) eqn:Hge;
    [|right; left; eauto 10].
  destruct (getBoxForHandLandmarks _) as [nextBoundingBox|].
  - right; right; left. eexists _, _, _. repeat split; eauto.
  - right; right; right. eauto 10.
Qed.

Lemma updateRegionsOfInterest_in_range (newBox : Box) (i : nat) (st : HandPipeline) :
  is_Some (slot (regionsOfInterest st) i) ->
  exists b, regionsOfInterest (updateRegionsOfInterest newBox i st)
            = <[i := Some b]> (regionsOfInterest st).
Proof.
  intros [previousBox Hprev].
  destruct (updateRegionsOfInterest_gate newBox previousBox i st Hprev)
    as (_ & _ & ->).
  eexists. reflexivity.
Qed.

(** *** The loop over the region list *)

(** Unfolds one pass of [forRegions] and splits it by [iteration_cases]. *)
Ltac one_pass useFreshBox image config i st Hrun :=
  let r1 := fresh "r1" in
  let st1 := fresh "st1" in
  let evs1 := fresh "evs1" in
  let Hpass := fresh "Hpass" in
  simpl in Hrun;
  pose proof (iteration_cases useFreshBox image config i st) as Hpass;
  destruct (iteration useFreshBox image config i st) as [[r1 st1] evs1];
  destruct Hpass as
    [(Hslot & -> & -> & ->)
    |[(c & Hslot & Hge & -> & -> & ->)
     |[(c & h & nextBoundingBox & Hslot & Hge & Hconf & -> & -> & ->)
      |(Hslot & -> & -> & Hevs)]]].

Lemma forRegions_frame (useFreshBox : bool) (image : Image) (config : Config)
    (keys : list nat) :
  forall st r st' evs,
    forRegions useFreshBox image config keys st = (r, st', evs) ->
    inputSize st' = inputSize st
    /\ runsWithoutHandDetector st' = runsWithoutHandDetector st
    /\ skipFrames st' = skipFrames st
    /\ detectedHands st' = detectedHands st
    /\ length (regionsOfInterest st') = length (regionsOfInterest st)
    /\ (forall j, is_Some (slot (regionsOfInterest st') j)
                  <-> is_Some (slot (regionsOfInterest st) j))
    /\ (forall j, j ∉ keys ->
                  regionsOfInterest st' !! j = regionsOfInterest st !! j).
Proof.
  induction keys as [|i keys IH]; intros st r st' evs Hrun.
  - simpl in Hrun. injection Hrun as <- <- <-. tauto.
  - one_pass useFreshBox image config i st Hrun.
    all: try (injection Hrun as <- <- <-; tauto).
    all: destruct (forRegions _ _ _ keys _) as [[rest st''] evs'] eqn:Hrest;
      injection Hrun as <- <- <-;
      destruct (IH _ _ _ _ Hrest) as (H1 & H2 & H3 & H4 & H5 & H6 & H7).
    + repeat apply conj; auto.
      intros j [_ Hj]%not_elem_of_cons. now apply H7.
    + repeat apply conj; auto.
      intros j [_ Hj]%not_elem_of_cons. now apply H7.
    + destruct (updateRegionsOfInterest_in_range nextBoundingBox i st Hslot)
        as [b Hupd].
      rewrite Hupd in *. rewrite length_insert in H5.
      repeat apply conj; auto.
      * intros j. rewrite H6. unfold slot.
        destruct (decide (i = j)) as [->|Hne].
        -- rewrite list_lookup_insert_eq; [split; eauto|].
           destruct Hslot as [x Hx]. apply (slot_lt _ _ x). exact Hx.
        -- now rewrite list_lookup_insert_ne.
      * intros j [Hne Hj]%not_elem_of_cons. rewrite H7 by exact Hj.
        apply list_lookup_insert_ne. congruence.
Qed.

Lemma forRegions_events (useFreshBox : bool) (image : Image) (config : Config)
    (keys : list nat) :
  forall st r st' evs,
    forRegions useFreshBox image config keys st = (r, st', evs) ->
    forall e, e ∈ evs ->
      exists i c, e = Predict i c /\ i ∈ keys
                  /\ is_Some (slot (regionsOfInterest st) i).
Proof.
  induction keys as [|i keys IH]; intros st r st' evs Hrun e He.
  - simpl in Hrun. injection Hrun as <- <- <-. inversion He.
  - one_pass useFreshBox image config i st Hrun.
    4: { injection Hrun as <- <- <-.
         destruct Hevs as [->|(c & _ & ->)]; [inversion He|].
         apply list_elem_of_singleton in He as ->.
         exists i, c. repeat apply conj; auto. left. }
    all: destruct (forRegions _ _ _ keys _) as [[rest st''] evs'] eqn:Hrest;
      injection Hrun as <- <- <-.
    + destruct (IH _ _ _ _ Hrest e He) as (j & c & -> & Hj & Hs).
      exists j, c. repeat apply conj; auto. now right.
    + apply elem_of_cons in He as [->|He].
      * exists i, c. repeat apply conj; auto. left.
      * destruct (IH _ _ _ _ Hrest e He) as (j & c' & -> & Hj & Hs).
        exists j, c'. repeat apply conj; auto. now right.
    + apply elem_of_cons in He as [->|He].
      * exists i, c. repeat apply conj; auto. left.
      * destruct (IH _ _ _ _ Hrest e He) as (j & c' & -> & Hj & Hs).
        exists j, c'. repeat apply conj; auto; [now right|].
        destruct (updateRegionsOfInterest_in_range nextBoundingBox i st Hslot)
          as [b Hupd].
        rewrite Hupd in Hs. unfold slot in *.
        destruct (decide (i = j)) as [->|Hne]; [exact Hslot|].
        now rewrite list_lookup_insert_ne in Hs.
Qed.

Lemma confidences_cons_predict (i : nat) (c : float) (evs : list event) :
  confidences (Predict i c :: evs) = c :: confidences evs.
Proof. reflexivity. Qed.

Lemma meetingMinimum_cons (config : Config) (c : float) (cs : list float) :
  meetingMinimum config (c :: cs)
  = if JS.ge c (cfg_minConfidence config)
    then c :: meetingMinimum config cs else meetingMinimum config cs.
Proof. reflexivity. Qed.

Lemma droppedCount_cons_predict (config : Config) (i : nat) (c : float)
    (evs : list event) :
  droppedCount config (Predict i c :: evs)
  = ((if JS.ge c (cfg_minConfidence config) then 0 else 1)
     + droppedCount config evs)%nat.
Proof.
  unfold droppedCount. simpl.
  now destruct (JS.ge c (cfg_minConfidence config)).
Qed.

Lemma forRegions_hands (useFreshBox : bool) (image : Image) (config : Config)
    (keys : list nat) :
  forall st hs st' evs,
    forRegions useFreshBox image config keys st = (Some hs, st', evs) ->
    map handInViewConfidence hs = meetingMinimum config (confidences evs)
    /\ (length hs + droppedCount config evs <= length keys)%nat
    /\ (forall i, i ∈ keys -> is_Some (slot (regionsOfInterest st) i) ->
                  exists c, Predict i c ∈ evs).
Proof.
  induction keys as [|i keys IH]; intros st hs st' evs Hrun.
  - simpl in Hrun. injection Hrun as <- <- <-.
    repeat apply conj; auto. intros i Hi. inversion Hi.
  - one_pass useFreshBox image config i st Hrun.
    4: discriminate.
    all: destruct (forRegions _ _ _ keys _) as [[[rest|] st''] evs'] eqn:Hrest;
      try discriminate;
      injection Hrun as <- <- <-;
      destruct (IH _ _ _ _ Hrest) as (Hmap & Hlen & Hall);
      cbn [option_list app length map].
    + repeat apply conj; [exact Hmap|lia|].
      intros j [->|Hj]%elem_of_cons Hs; [|now apply Hall].
      rewrite Hslot in Hs. now destruct Hs.
    + rewrite confidences_cons_predict, meetingMinimum_cons,
        droppedCount_cons_predict, Hge.
      repeat apply conj; [exact Hmap|lia|].
      intros j [->|Hj]%elem_of_cons Hs; [exists c; left|].
      destruct (Hall j Hj Hs) as [c' Hc']. exists c'. now right.
    + rewrite confidences_cons_predict, meetingMinimum_cons,
        droppedCount_cons_predict, Hge.
      repeat apply conj; [now rewrite Hconf, Hmap|lia|].
      intros j [->|Hj]%elem_of_cons Hs; [exists c; left|].
      destruct (updateRegionsOfInterest_in_range nextBoundingBox i st Hslot)
        as [b Hupd].
      assert (Hs' : is_Some (slot (regionsOfInterest
                       (updateRegionsOfInterest nextBoundingBox i st)) j)).
      { rewrite Hupd. unfold slot in *.
        destruct (decide (i = j)) as [->|Hne].
        - rewrite list_lookup_insert_eq; [eauto|].
          destruct Hslot as [x Hx]. apply (slot_lt _ _ x). exact Hx.
        - now rewrite list_lookup_insert_ne. }
      destruct (Hall j Hj Hs') as [c' Hc']. exists c'. now right.
Qed.

Lemma forRegions_dropped_unchanged (useFreshBox : bool) (image : Image)
    (config : Config) (keys : list nat) :
  NoDup keys ->
  forall st r st' evs,
    forRegions useFreshBox image config keys st = (r, st', evs) ->
    forall i c, Predict i c ∈ evs ->
      JS.ge c (cfg_minConfidence config) = false ->
      regionsOfInterest st' !! i = regionsOfInterest st !! i.
Proof.
  induction 1 as [|k keys Hk Hnd IH]; intros st r st' evs Hrun j conf Hin Hlow.
  - simpl in Hrun. injection Hrun as <- <- <-. inversion Hin.
  - one_pass useFreshBox image config k st Hrun.
    4: { injection Hrun as <- <- <-. reflexivity. }
    all: destruct (forRegions _ _ _ keys _) as [[rest st''] evs'] eqn:Hrest;
      injection Hrun as <- <- <-.
    + exact (IH _ _ _ _ Hrest j conf Hin Hlow).
    + apply elem_of_cons in Hin as [Heq|Hin].
      * injection Heq as -> ->.
        destruct (forRegions_frame _ _ _ _ _ _ _ _ Hrest)
          as (_ & _ & _ & _ & _ & _ & Hout).
        now apply Hout.
      * exact (IH _ _ _ _ Hrest j conf Hin Hlow).
    + apply elem_of_cons in Hin as [Heq|Hin].
      * injection Heq as -> ->. congruence.
      * rewrite (IH _ _ _ _ Hrest j conf Hin Hlow).
        destruct (forRegions_events _ _ _ _ _ _ _ _ Hrest _ Hin)
          as (j' & c' & Heq & Hj & _).
        injection Heq as <- <-.
        destruct (updateRegionsOfInterest_in_range nextBoundingBox k st Hslot)
          as [b ->].
        apply list_lookup_insert_ne. intros ->. contradiction.
Qed.

(** *** Before the loop *)

Lemma needsFreshBox_withSkipFrames (st : HandPipeline) (n : Z) :
  needsFreshBox (withSkipFrames st n) = needsFreshBox st.
Proof. reflexivity. Qed.

(** The three ways lines 89-110 end: no hands, fresh boxes, tracked boxes. *)
Lemma reconcile_cases (image : Image) (config : Config) (st : HandPipeline) :
  let st0 := withSkipFrames st (cfg_skipFrames config) in
  let evs := if runsDetector st0 then [EstimateHandBounds] else [] in
  (needsFreshBox st = true
   /\ (estimateHandBounds image config = None
       \/ estimateHandBounds image config = Some [])
   /\ reconcile image config st
      = (NoHands (withDetectedHands (withRegions st0 []) 0),
         [EstimateHandBounds; DisposeImage]))
  \/ (exists p ps,
        runsDetector st0 = true
        /\ estimateHandBounds image config = Some (p :: ps)
        /\ reconcile image config st
           = (Track true (withRuns (withRegions st0 (Some <$> p :: ps)) 0),
              [EstimateHandBounds])
        /\ (needsFreshBox st = true
            \/ (1 <? cfg_maxHands config) = true
               /\ Z.of_nat (length (p :: ps)) <> detectedHands st))
  \/ (needsFreshBox st = false
      /\ reconcile image config st
         = (Track false (withRuns st0 (runsWithoutHandDetector st + 1)), evs)).
Proof.
  cbv zeta. unfold reconcile, runsDetector.
  rewrite !needsFreshBox_withSkipFrames.
  cbn [skipFrames runsWithoutHandDetector detectedHands withSkipFrames].
  destruct (needsFreshBox st);
    destruct (cfg_skipFrames config <? runsWithoutHandDetector st);
    cbn [orb];
    destruct (estimateHandBounds image config) as [[|p ps]|];
    destruct (1 <? cfg_maxHands config);
    cbn [andb length];
    try destruct (Z.eqb_spec (Z.of_nat (S (length ps))) (detectedHands st));
    cbn [negb andb Z.ltb Z.compare Z.of_nat app];
    first [ left; repeat apply conj; auto; fail
          | right; left; exists p, ps; repeat apply conj; auto; fail
          | right; right; repeat apply conj; auto; fail ].
Qed.

(** *** The whole call *)

Lemma estimateHands_noHands (image : Image) (config : Config)
    (st st1 : HandPipeline) (evs0 : list event) :
  reconcile image config st = (NoHands st1, evs0) ->
  estimateHands image config st = mkOutcome (Return None) st1 evs0.
Proof. intros Hrec. unfold estimateHands. now rewrite Hrec. Qed.

Lemma estimateHands_track (image : Image) (config : Config)
    (st st1 : HandPipeline) (useFreshBox : bool) (evs0 : list event) :
  reconcile image config st = (Track useFreshBox st1, evs0) ->
  exists r st2 evs,
    forRegions useFreshBox image config
               (seq 0 (length (regionsOfInterest st1))) st1 = (r, st2, evs)
    /\ trace (estimateHands image config st) = evs0 ++ evs
    /\ match r with
       | Some hs =>
           result (estimateHands image config st) = Return (Some hs)
           /\ after (estimateHands image config st)
              = withDetectedHands st2 (Z.of_nat (length hs))
       | None =>
           result (estimateHands image config st) = Throw
           /\ after (estimateHands image config st) = st2
       end.
Proof.
  intros Hrec. unfold estimateHands. rewrite Hrec.
  destruct (forRegions _ _ _ _ _) as [[[hs|] st2] evs];
    eexists _, _, _; simpl; auto.
Qed.

Lemma forRegions_no_detection (useFreshBox : bool) (image : Image)
    (config : Config) (keys : list nat) (st st' : HandPipeline)
    (r : option (list Hand)) (evs : list event) :
  forRegions useFreshBox image config keys st = (r, st', evs) ->
  existsb isEstimateHandBounds evs = false.
Proof.
  intros Hrun. destruct (existsb _ evs) eqn:Hex; [|reflexivity].
  apply existsb_exists in Hex as (e & Hin%list_elem_of_In & He).
  destruct (forRegions_events _ _ _ _ _ _ _ _ Hrun e Hin) as (i & c & -> & _).
  discriminate.
Qed.

(** The detector is run exactly when line 94 says so. *)
Lemma estimateHands_invokes (image : Image) (config : Config) (st : HandPipeline) :
  invokedDetector (estimateHands image config st)
  = runsDetector (withSkipFrames st (cfg_skipFrames config)).
Proof.
  unfold invokedDetector.
  destruct (reconcile_cases image config st)
    as [(Hfresh & _ & Hrec)|[(p & ps & Hdet & _ & Hrec & _)|(Hfresh & Hrec)]].
  - rewrite (estimateHands_noHands _ _ _ _ _ Hrec). simpl.
    unfold runsDetector. now rewrite needsFreshBox_withSkipFrames, Hfresh.
  - destruct (estimateHands_track _ _ _ _ _ _ Hrec)
      as (r & st2 & evs & Hrun & -> & _).
    now rewrite Hdet.
  - destruct (estimateHands_track _ _ _ _ _ _ Hrec)
      as (r & st2 & evs & Hrun & -> & _).
    rewrite existsb_app, (forRegions_no_detection _ _ _ _ _ _ _ _ Hrun), orb_false_r.
    now destruct (runsDetector _).
Qed.

Lemma existsb_filter_length {A : Type} (f : A -> bool) (l : list A) :
  existsb f l = true -> (1 <= length (List.filter f l))%nat.
Proof.
  induction l as [|a l IH]; simpl; [discriminate|].
  destruct (f a); simpl; [lia|exact IH].
Qed.

(** C8: when the detected count is 0, the call runs the bounding-box
    detector, whatever the frame, the configuration and the rest of the
    state. *)
Theorem detectedHands_zero_forces_detection
    (image : Image) (config : Config) (st : HandPipeline) :
  detectedHands st = 0 ->
  invokedDetector (estimateHands image config st) = true
  /\ exists rest,
       trace (estimateHands image config st) = EstimateHandBounds :: rest.
Proof.
  intros Hzero.
  assert (Hfresh : needsFreshBox st = true).
  { unfold needsFreshBox. now rewrite Hzero. }
  split.
  - rewrite estimateHands_invokes. unfold runsDetector.
    now rewrite needsFreshBox_withSkipFrames, Hfresh.
  - destruct (reconcile_cases image config st)
      as [(_ & _ & Hrec)|[(p & ps & _ & _ & Hrec & _)|(Hno & _)]];
      [| |congruence].
    + rewrite (estimateHands_noHands _ _ _ _ _ Hrec). simpl. eauto.
    + destruct (estimateHands_track _ _ _ _ _ _ Hrec)
        as (r & st2 & evs & _ & -> & _).
      simpl. eauto.
Qed.

(** C5: when line 91 forces a fresh detection pass and the detector reports
    no region (an empty array, or nothing), the call empties the region
    list, sets the detected count to 0, disposes the input image and returns
    [null]; it does not raise, and it touches nothing else but [skipFrames],
    which every call sets from the configuration. *)
Theorem no_detection_clears_state
    (image : Image) (config : Config) (st : HandPipeline) :
  needsFreshBox st = true ->
  estimateHandBounds image config = None
  \/ estimateHandBounds image config = Some [] ->
  estimateHands image config st
  = mkOutcome (Return None)
      (mkPipeline (inputSize st) [] (runsWithoutHandDetector st)
                  (cfg_skipFrames config) 0)
      [EstimateHandBounds; DisposeImage].
Proof.
  intros Hfresh Hdet.
  destruct (reconcile_cases image config st)
    as [(_ & _ & Hrec)|[(p & ps & _ & Hsome & _)|(Hno & _)]].
  - now rewrite (estimateHands_noHands _ _ _ _ _ Hrec).
  - destruct Hdet; congruence.
  - congruence.
Qed.

Lemma existsb_isDropped_detect (config : Config) (d : bool) (evs : list event) :
  existsb (isDropped config) ((if d then [EstimateHandBounds] else []) ++ evs)
  = existsb (isDropped config) evs.
Proof. now destruct d. Qed.

Lemma needsFreshBox_mismatch (st : HandPipeline) :
  detectedHands st <> Z.of_nat (length (regionsOfInterest st)) ->
  needsFreshBox st = true.
Proof.
  intros Hne. unfold needsFreshBox.
  apply Z.eqb_neq in Hne. rewrite Hne. apply orb_true_r.
Qed.

(** What a call that gets to the loop and returns leaves behind. *)
Lemma estimateHands_returns (image : Image) (config : Config)
    (st st1 : HandPipeline) (useFreshBox : bool) (evs0 : list event)
    (hs : list Hand) :
  reconcile image config st = (Track useFreshBox st1, evs0) ->
  result (estimateHands image config st) = Return (Some hs) ->
  exists st2 evs,
    forRegions useFreshBox image config
               (seq 0 (length (regionsOfInterest st1))) st1 = (Some hs, st2, evs)
    /\ trace (estimateHands image config st) = evs0 ++ evs
    /\ after (estimateHands image config st)
       = withDetectedHands st2 (Z.of_nat (length hs)).
Proof.
  intros Hrec Hres.
  destruct (estimateHands_track _ _ _ _ _ _ Hrec)
    as ([hs'|] & st2 & evs & Hrun & Htr & Hr & Haft); [|congruence].
  rewrite Hr in Hres. injection Hres as ->. eauto.
Qed.

(** C10: after a call that returns, [detectedHands] is the number of hands
    returned, and 0 when [null] was returned; and if in that call some slot's
    confidence was below the minimum, the counter differs from the length of
    the region list, so that the next call runs the detector. *)
Theorem detectedHands_counts_returned_hands
    (image : Image) (config : Config) (st : HandPipeline) :
  (forall hs, result (estimateHands image config st) = Return (Some hs) ->
     detectedHands (after (estimateHands image config st))
     = Z.of_nat (length hs))
  /\ (result (estimateHands image config st) = Return None ->
      detectedHands (after (estimateHands image config st)) = 0)
  /\ (forall r, result (estimateHands image config st) = Return r ->
      existsb (isDropped config) (trace (estimateHands image config st)) = true ->
      detectedHands (after (estimateHands image config st))
      <> Z.of_nat (length (regionsOfInterest
                              (after (estimateHands image config st))))
      /\ forall image' config',
           invokedDetector
             (estimateHands image' config' (after (estimateHands image config st)))
           = true).
Proof.
  destruct (reconcile_cases image config st)
    as [(Hfresh & _ & Hrec)|Htrack].
  - rewrite (estimateHands_noHands _ _ _ _ _ Hrec). simpl.
    repeat apply conj; [discriminate|reflexivity|discriminate].
  - assert (exists useFreshBox st1 d,
               reconcile image config st
               = (Track useFreshBox st1, if d : bool then [EstimateHandBounds] else []))
      as (useFreshBox & st1 & d & Hrec).
    { destruct Htrack as [(p & ps & _ & _ & Hrec & _)|(_ & Hrec)].
      - eexists true, _, true. exact Hrec.
      - eexists false, _, _. exact Hrec. }
    clear Htrack. repeat apply conj.
    + intros hs Hres.
      destruct (estimateHands_returns _ _ _ _ _ _ _ Hrec Hres)
        as (st2 & evs & _ & _ & ->).
      reflexivity.
    + destruct (estimateHands_track _ _ _ _ _ _ Hrec)
        as ([hs|] & st2 & evs & _ & _ & -> & _); discriminate.
    + intros r Hres Hdrop.
      assert (exists hs, r = Some hs) as [hs ->].
      { destruct (estimateHands_track _ _ _ _ _ _ Hrec)
          as ([hs|] & st2 & evs & _ & _ & Hr & _);
          rewrite Hr in Hres; [|discriminate].
        injection Hres as <-. eauto. }
      destruct (estimateHands_returns _ _ _ _ _ _ _ Hrec Hres)
        as (st2 & evs & Hrun & Htr & Haft).
      rewrite Htr, existsb_isDropped_detect in Hdrop.
      apply existsb_filter_length in Hdrop.
      destruct (forRegions_hands _ _ _ _ _ _ _ _ Hrun) as (_ & Hlen & _).
      destruct (forRegions_frame _ _ _ _ _ _ _ _ Hrun)
        as (_ & _ & _ & _ & Hsame & _).
      unfold droppedCount in Hlen. rewrite length_seq in Hlen.
      assert (Hne : detectedHands (after (estimateHands image config st))
                    <> Z.of_nat (length (regionsOfInterest
                                           (after (estimateHands image config st))))).
      { rewrite Haft. simpl. lia. }
      split; [exact Hne|].
      intros image' config'. rewrite estimateHands_invokes.
      unfold runsDetector.
      now rewrite needsFreshBox_withSkipFrames, (needsFreshBox_mismatch _ Hne).
Qed.

Lemma estimateHands_track_length (image : Image) (config : Config)
    (st st1 : HandPipeline) (useFreshBox : bool) (evs0 : list event) :
  reconcile image config st = (Track useFreshBox st1, evs0) ->
  length (regionsOfInterest (after (estimateHands image config st)))
  = length (regionsOfInterest st1)
  /\ runsWithoutHandDetector (after (estimateHands image config st))
     = runsWithoutHandDetector st1.
Proof.
  intros Hrec.
  destruct (estimateHands_track _ _ _ _ _ _ Hrec)
    as (r & st2 & evs & Hrun & _ & Hr).
  destruct (forRegions_frame _ _ _ _ _ _ _ _ Hrun)
    as (_ & Hruns & _ & _ & Hlen & _).
  destruct r as [hs|]; destruct Hr as [_ ->]; simpl; auto.
Qed.

(** C4, as amended: [estimateHands] applies no cap of its own.  When line 91
    asks for fresh boxes, the region list after the call holds one slot per
    box the detector returned, whatever [maxHands] is; and the number of
    slots after a call is at most [maxHands] whenever it was so before the
    call and the detector returns at most [maxHands] boxes. *)
Theorem tracked_slots_follow_detector
    (image : Image) (config : Config) (st : HandPipeline) :
  (forall ps, needsFreshBox st = true ->
     estimateHandBounds image config = Some ps ->
     length (regionsOfInterest (after (estimateHands image config st)))
     = length ps)
  /\ (0 <= cfg_maxHands config ->
      Z.of_nat (length (regionsOfInterest st)) <= cfg_maxHands config ->
      (forall ps, estimateHandBounds image config = Some ps ->
                  Z.of_nat (length ps) <= cfg_maxHands config) ->
      Z.of_nat (length (regionsOfInterest (after (estimateHands image config st))))
      <= cfg_maxHands config).
Proof.
  destruct (reconcile_cases image config st)
    as [(Hfresh & Hdet & Hrec)|[(p & ps & _ & Hdet & Hrec & _)|(Hno & Hrec)]].
  - rewrite (estimateHands_noHands _ _ _ _ _ Hrec). simpl. split.
    + intros ps _ Hps. destruct Hdet as [Hdet|Hdet]; rewrite Hdet in Hps;
        [discriminate|]. now injection Hps as <-.
    + auto.
  - destruct (estimateHands_track_length _ _ _ _ _ _ Hrec) as [-> _].
    simpl. rewrite length_fmap. split.
    + intros ps' _ Hps. rewrite Hdet in Hps. now injection Hps as <-.
    + intros _ _ Hcap. exact (Hcap _ Hdet).
  - destruct (estimateHands_track_length _ _ _ _ _ _ Hrec) as [-> _].
    simpl. split; [congruence|auto].
Qed.

(** Only a forced pass clears the state: when line 91 does not ask for fresh
    boxes and the detector, run because the counter is above [skipFrames],
    reports no region, the loop runs over the region list as it was. *)
Lemma periodic_detection_empty_keeps_tracking
    (image : Image) (config : Config) (st : HandPipeline) :
  needsFreshBox st = false ->
  estimateHandBounds image config = Some [] ->
  exists evs,
    reconcile image config st
    = (Track false (withRuns (withSkipFrames st (cfg_skipFrames config))
                             (runsWithoutHandDetector st + 1)), evs).
Proof.
  intros Hno Hdet.
  destruct (reconcile_cases image config st)
    as [(Hfresh & _)|[(p & ps & _ & Hsome & _)|(_ & Hrec)]];
    [congruence|congruence|eauto].
Qed.

(** A frame on which the tracked count is stable: the detector runs only if
    the counter is already above [skipFrames], and the counter goes up by
    one whether the detector ran or not. *)
Lemma stable_count_keeps_counting
    (image : Image) (config : Config) (st : HandPipeline) :
  needsFreshBox st = false ->
  (forall ps, estimateHandBounds image config = Some ps ->
              Z.of_nat (length ps) = detectedHands st) ->
  invokedDetector (estimateHands image config st)
  = (cfg_skipFrames config <? runsWithoutHandDetector st)
  /\ runsWithoutHandDetector (after (estimateHands image config st))
     = runsWithoutHandDetector st + 1.
Proof.
  intros Hno Hsame. split.
  - rewrite estimateHands_invokes. unfold runsDetector.
    now rewrite needsFreshBox_withSkipFrames, Hno.
  - destruct (reconcile_cases image config st)
      as [(Hfresh & _)|[(p & ps & _ & Hdet & _ & [Hfresh|[_ Hne]])|(_ & Hrec)]];
      try congruence.
    + now apply Hsame in Hdet.
    + now destruct (estimateHands_track_length _ _ _ _ _ _ Hrec) as [_ ->].
Qed.

Lemma existsb_In_true {A : Type} (f : A -> bool) (l : list A) (a : A) :
  a ∈ l -> f a = true -> existsb f l = true.
Proof.
  intros Hin%list_elem_of_In Hf. apply existsb_exists. eauto.
Qed.

(** C6, as amended.  A pass whose confidence is below the minimum raises
    nothing, pushes nothing and leaves the state as it was.  In a call that
    gets to the loop and returns, the hands returned are, in order, the
    passes whose confidence met the minimum; every slot holding a box got a
    pass; a slot whose pass was dropped still holds the same box when the
    call returns.  The next call does not try that box again: it runs the
    detector and replaces the region list by the boxes the detector returns,
    or, when there are none, clears it and returns without any pass. *)
Theorem low_confidence_dropped_silently
    (image : Image) (config : Config) (st : HandPipeline) :
  (forall useFreshBox i st0 c,
     Predict i c ∈ (iteration useFreshBox image config i st0).2 ->
     JS.ge c (cfg_minConfidence config) = false ->
     (iteration useFreshBox image config i st0).1 = (Some None, st0))
  /\ (forall useFreshBox st1 evs0 hs,
      reconcile image config st = (Track useFreshBox st1, evs0) ->
      result (estimateHands image config st) = Return (Some hs) ->
      map handInViewConfidence hs
      = meetingMinimum config (confidences (trace (estimateHands image config st)))
      /\ (forall i, is_Some (slot (regionsOfInterest st1) i)
                    <-> exists c, Predict i c ∈ trace (estimateHands image config st))
      /\ (forall i c,
            Predict i c ∈ trace (estimateHands image config st) ->
            JS.ge c (cfg_minConfidence config) = false ->
            regionsOfInterest (after (estimateHands image config st)) !! i
            = regionsOfInterest st1 !! i
            /\ forall image' config',
                 let o := estimateHands image config st in
                 let cleared :=
                   withRegions (withSkipFrames (after o) (cfg_skipFrames config')) [] in
                 reconcile image' config' (after o)
                 = match estimateHandBounds image' config' with
                   | Some (p :: ps) =>
                       (Track true (withRuns (withRegions cleared (Some <$> p :: ps)) 0),
                        [EstimateHandBounds])
                   | _ =>
                       (NoHands (withDetectedHands cleared 0),
                        [EstimateHandBounds; DisposeImage])
                   end)).
Proof.
  split.
  - intros useFreshBox i st0 c Hin Hlow.
    pose proof (iteration_cases useFreshBox image config i st0) as Hpass.
    destruct (iteration useFreshBox image config i st0) as [[r st'] evs].
    simpl in *.
    destruct Hpass as
      [(_ & -> & -> & ->)
      |[(c' & _ & _ & -> & -> & ->)
       |[(c' & h & nb & _ & Hge & _ & -> & -> & ->)
        |(_ & -> & -> & [->|(c' & Hge & ->)])]]];
      try reflexivity; try (now inversion Hin);
      apply list_elem_of_singleton in Hin; injection Hin as <-; congruence.
  - intros useFreshBox st1 evs0 hs Hrec Hres.
    destruct (estimateHands_returns _ _ _ _ _ _ _ Hrec Hres)
      as (st2 & evs & Hrun & Htr & Haft).
    destruct (forRegions_hands _ _ _ _ _ _ _ _ Hrun) as (Hmap & Hlen & Hall).
    destruct (forRegions_frame _ _ _ _ _ _ _ _ Hrun)
      as (_ & _ & _ & _ & Hsame & _).
    assert (Hevs0 : exists d : bool,
               evs0 = if d then [EstimateHandBounds] else []).
    { destruct (reconcile_cases image config st)
        as [(_ & _ & Hrec')|[(p & ps & _ & _ & Hrec' & _)|(_ & Hrec')]];
        rewrite Hrec in Hrec'.
      - discriminate.
      - exists true. congruence.
      - exists (runsDetector (withSkipFrames st (cfg_skipFrames config))).
        congruence. }
    destruct Hevs0 as [d ->].
    assert (Hin : forall e, e ∈ trace (estimateHands image config st) ->
                    e = EstimateHandBounds \/ e ∈ evs).
    { intros e. rewrite Htr, elem_of_app.
      destruct d; [rewrite list_elem_of_singleton|]; intros [He|He];
        auto; inversion He. }
    repeat apply conj.
    + rewrite Htr. now destruct d.
    + intros i. split.
      * intros Hs. assert (Hi : i ∈ seq 0 (length (regionsOfInterest st1))).
        { apply elem_of_seq. destruct Hs as [b Hb%slot_lt]. lia. }
        destruct (Hall i Hi Hs) as [c Hc]. exists c.
        rewrite Htr. apply elem_of_app. now right.
      * intros [c [Hc|Hc]%Hin]; [discriminate|].
        destruct (forRegions_events _ _ _ _ _ _ _ _ Hrun _ Hc)
          as (j & c' & Heq & _ & Hs).
        now injection Heq as -> _.
    + intros i c [Hc|Hc]%Hin Hlow; [discriminate|]. split.
      * rewrite Haft. simpl.
        exact (forRegions_dropped_unchanged _ _ _ _ (NoDup_seq _ _)
                 _ _ _ _ Hrun i c Hc Hlow).
      * intros image' config'. cbv zeta.
        assert (Hdrop : existsb (isDropped config) evs = true).
        { apply (existsb_In_true _ _ _ Hc). simpl. now rewrite Hlow. }
        apply existsb_filter_length in Hdrop.
        unfold droppedCount in Hlen. rewrite length_seq in Hlen.
        assert (Hfresh : needsFreshBox (after (estimateHands image config st)) = true).
        { apply needsFreshBox_mismatch. rewrite Haft. simpl. lia. }
        destruct (reconcile_cases image' config'
                    (after (estimateHands image config st)))
          as [(_ & Hdet & ->)|[(p & ps & _ & -> & -> & _)|(Hno & _)]];
          [|reflexivity|congruence].
        destruct Hdet as [->| ->]; reflexivity.
Qed.

(** *** Further properties of the call *)

Lemma getBoxForHandLandmarks_is_Some (landmarks : list Coord) :
  is_Some (getBoxForHandLandmarks landmarks) <-> (18 <= length landmarks)%nat.
Proof.
  unfold getBoxForHandLandmarks. cbv zeta.
  set (f := fun id : nat =>
              (fun c : Coord => (fst (fst c), snd (fst c))) <$> landmarks !! id).
  split.
  - intros [b Hb]. destruct (mapM f PALM_LANDMARK_IDS) as [palm|] eqn:Hpalm;
      [|discriminate].
    assert (Hall : Forall (is_Some ∘ f) PALM_LANDMARK_IDS)
      by (apply mapM_is_Some; eauto).
    rewrite Forall_forall in Hall.
    assert (H17 : is_Some (f 17%nat)) by (apply Hall; unfold PALM_LANDMARK_IDS;
                                          do 4 right; left).
    unfold f in H17. apply fmap_is_Some, lookup_lt_is_Some in H17. lia.
  - intros Hlen.
    assert (Hall : is_Some (mapM f PALM_LANDMARK_IDS)).
    { apply mapM_is_Some, Forall_forall. intros id Hid. unfold f; simpl.
      apply fmap_is_Some, lookup_lt_is_Some.
      unfold PALM_LANDMARK_IDS in Hid.
      repeat (apply elem_of_cons in Hid as [->|Hid]; [lia|]). inversion Hid. }
    destruct Hall as [palm ->]. simpl. eauto.
Qed.

(** X7: [getBoxForHandLandmarks] returns a box exactly when there are at
    least 18 landmarks (palm id 17 is the largest read); with fewer it raises.
    The box it returns carries seven palm landmarks, the x and y of landmarks
    0, 5, 9, 13, 17, 1 and 2 in that order, and the corners of the shifted,
    squared and enlarged bounding box of the landmarks. *)
Theorem getBoxForHandLandmarks_needs_18 (landmarks : list Coord) :
  (is_Some (getBoxForHandLandmarks landmarks) <-> (18 <= length landmarks)%nat)
  /\ (forall b, getBoxForHandLandmarks landmarks = Some b ->
        Forall2 (fun id p => exists c, landmarks !! id = Some c
                                       /\ p = (fst (fst c), snd (fst c)))
                PALM_LANDMARK_IDS (palmLandmarks b)
        /\ length (palmLandmarks b) = 7%nat
        /\ let around :=
             enlargeBox
               (squarifyBox (shiftBox (calculateLandmarksBoundingBox landmarks)
                                      HAND_BOX_SHIFT_VECTOR))
               HAND_BOX_ENLARGE_FACTOR in
           startPoint b = startPoint around /\ endPoint b = endPoint around).
Proof.
  split; [apply getBoxForHandLandmarks_is_Some|].
  unfold getBoxForHandLandmarks. cbv zeta.
  set (f := fun id : nat =>
              (fun c : Coord => (fst (fst c), snd (fst c))) <$> landmarks !! id).
  intros b Hb. destruct (mapM f PALM_LANDMARK_IDS) as [palm|] eqn:Hpalm;
    [|discriminate].
  simpl in Hb. injection Hb as <-. simpl.
  apply mapM_Some in Hpalm.
  repeat apply conj; trivial.
  - eapply Forall2_impl; [exact Hpalm|]. intros id p Hf. unfold f in Hf.
    destruct (landmarks !! id) as [c|]; [|discriminate].
    injection Hf as <-. eauto.
  - exact (eq_sym (Forall2_length _ _ _ Hpalm)).
Qed.

(** [transformRawCoords] transforms every keypoint on its own: the result for
    two lists put end to end is the two results put end to end. *)
Lemma transformRawCoords_app
    (st : HandPipeline) (raw1 raw2 : list Coord) (box2 : Box) (angle : float)
    (rotationMatrix : Matrix) :
  transformRawCoords st (raw1 ++ raw2) box2 angle rotationMatrix
  = transformRawCoords st raw1 box2 angle rotationMatrix
    ++ transformRawCoords st raw2 box2 angle rotationMatrix.
Proof. unfold transformRawCoords. now rewrite !map_app. Qed.

(** X8: the bounding-box detector is run by a call exactly when the detected
    count is 0, or differs from the number of slots, or the counter of runs
    without detector is above [config.skipFrames]. *)
Theorem detector_runs_iff (image : Image) (config : Config) (st : HandPipeline) :
  invokedDetector (estimateHands image config st) = true
  <-> detectedHands st = 0
      \/ detectedHands st <> Z.of_nat (length (regionsOfInterest st))
      \/ cfg_skipFrames config < runsWithoutHandDetector st.
Proof.
  rewrite estimateHands_invokes. unfold runsDetector, needsFreshBox. simpl.
  rewrite !orb_true_iff, negb_true_iff, Z.eqb_eq, Z.eqb_neq, Z.ltb_lt. tauto.
Qed.


(** X10: with [maxHands] above 1, when the detector is run on a frame that
    did not ask for fresh boxes and reports a non-zero number of boxes that
    differs from the detected count, the region list is replaced by the boxes
    reported and the counter is reset to 0. *)
Theorem multi_hand_replaces_regions
    (image : Image) (config : Config) (st : HandPipeline) (ps : list Box) :
  needsFreshBox st = false ->
  1 < cfg_maxHands config ->
  cfg_skipFrames config < runsWithoutHandDetector st ->
  estimateHandBounds image config = Some ps ->
  ps <> [] ->
  Z.of_nat (length ps) <> detectedHands st ->
  reconcile image config st
  = (Track true
       (mkPipeline (inputSize st) (Some <$> ps) 0 (cfg_skipFrames config)
                   (detectedHands st)),
     [EstimateHandBounds]).
Proof.
  intros Hno Hmax Hskip Hdet Hne Hcount.
  unfold reconcile, runsDetector. rewrite !needsFreshBox_withSkipFrames, Hno.
  cbn [skipFrames runsWithoutHandDetector detectedHands withSkipFrames orb].
  apply Z.ltb_lt in Hskip, Hmax. rewrite Hskip, Hmax, Hdet.
  apply Z.eqb_neq in Hcount. rewrite Hcount.
  destruct ps as [|p ps]; [congruence|]. reflexivity.
Qed.

Lemma estimateHands_null_cases
    (image : Image) (config : Config) (st : HandPipeline) :
  (result (estimateHands image config st) = Return None
   <-> needsFreshBox st = true
       /\ (estimateHandBounds image config = None
           \/ estimateHandBounds image config = Some []))
  /\ (DisposeImage ∈ trace (estimateHands image config st)
      <-> result (estimateHands image config st) = Return None).
Proof.
  destruct (reconcile_cases image config st)
    as [(Hfresh & Hdet & Hrec)|Htrack].
  - rewrite (estimateHands_noHands _ _ _ _ _ Hrec). simpl. split.
    + tauto.
    + split; [reflexivity|]. intros _. right. left.
  - assert (exists useFreshBox st1 d,
               reconcile image config st
               = (Track useFreshBox st1, if d : bool then [EstimateHandBounds] else [])
               /\ (useFreshBox = true ->
                   exists p ps, estimateHandBounds image config = Some (p :: ps))
               /\ (useFreshBox = false -> needsFreshBox st = false))
      as (useFreshBox & st1 & d & Hrec & Hyes & Hno).
    { destruct Htrack as [(p & ps & _ & Hdet & Hrec & _)|(Hno & Hrec)].
      - eexists true, _, true. repeat apply conj; eauto. discriminate.
      - eexists false, _, _. repeat apply conj; eauto. discriminate. }
    destruct (estimateHands_track _ _ _ _ _ _ Hrec)
      as (r & st2 & evs & Hrun & Htr & Hr).
    assert (Hres : result (estimateHands image config st) <> Return None).
    { destruct r; destruct Hr as [-> _]; discriminate. }
    split.
    + split; [contradiction|]. intros [Hfresh Hdet].
      destruct useFreshBox.
      * destruct (Hyes eq_refl) as (p & ps & Hsome).
        destruct Hdet; congruence.
      * rewrite Hno in Hfresh by reflexivity. discriminate.
    + split; [|contradiction]. rewrite Htr. intros Hin. exfalso.
      apply elem_of_app in Hin as [Hin|Hin].
      * destruct d; [apply list_elem_of_singleton in Hin|inversion Hin].
        discriminate.
      * destruct (forRegions_events _ _ _ _ _ _ _ _ Hrun _ Hin)
          as (i & c & Heq & _). discriminate.
Qed.

(** X11: a call returns [null] exactly when line 91 asked for fresh boxes and
    the detector reported none; and the input image is disposed by the call
    exactly when it returns [null]: on every other outcome the image is left
    to the caller. *)
Theorem null_iff_forced_pass_finds_nothing
    (image : Image) (config : Config) (st : HandPipeline) :
  (result (estimateHands image config st) = Return None
   <-> needsFreshBox st = true
       /\ (estimateHandBounds image config = None
           \/ estimateHandBounds image config = Some []))
  /\ (DisposeImage ∈ trace (estimateHands image config st)
      <-> result (estimateHands image config st) = Return None).
Proof. apply estimateHands_null_cases. Qed.

(** X12: when a TypeError escapes the call, the image has not been disposed,
    [detectedHands] keeps the value it had before the call, and
    [skipFrames] is already that of the configuration. *)
Theorem throw_leaves_detectedHands
    (image : Image) (config : Config) (st : HandPipeline) :
  result (estimateHands image config st) = Throw ->
  detectedHands (after (estimateHands image config st)) = detectedHands st
  /\ skipFrames (after (estimateHands image config st)) = cfg_skipFrames config
  /\ inputSize (after (estimateHands image config st)) = inputSize st
  /\ DisposeImage ∉ trace (estimateHands image config st).
Proof.
  intros Hthrow.
  destruct (proj2 (estimateHands_null_cases image config st))
    as [Hdisp _].
  assert (Hnot : DisposeImage ∉ trace (estimateHands image config st)).
  { intros Hin. apply Hdisp in Hin. congruence. }
  destruct (reconcile_cases image config st)
    as [(_ & _ & Hrec)|[(p & ps & _ & _ & Hrec & _)|(_ & Hrec)]].
  - rewrite (estimateHands_noHands _ _ _ _ _ Hrec) in Hthrow. discriminate.
  - destruct (estimateHands_track _ _ _ _ _ _ Hrec)
      as ([hs|] & st2 & evs & Hrun & _ & Hr & Haft); [congruence|].
    destruct (forRegions_frame _ _ _ _ _ _ _ _ Hrun)
      as (Hsize & _ & Hskip & Hdet & _).
    rewrite Haft, Hsize, Hskip, Hdet. auto.
  - destruct (estimateHands_track _ _ _ _ _ _ Hrec)
      as ([hs|] & st2 & evs & Hrun & _ & Hr & Haft); [congruence|].
    destruct (forRegions_frame _ _ _ _ _ _ _ _ Hrun)
      as (Hsize & _ & Hskip & Hdet & _).
    rewrite Haft, Hsize, Hskip, Hdet. auto.
Qed.

Lemma iteration_hand (useFreshBox : bool) (image : Image) (config : Config)
    (i : nat) (st st' : HandPipeline) (h : Hand) (evs : list event) :
  iteration useFreshBox image config i st = (Some (Some h), st', evs) ->
  JS.ge (handInViewConfidence h) (cfg_minConfidence config) = true
  /\ exists nextBoundingBox,
       getBoxForHandLandmarks (landmarks h) = Some nextBoundingBox
       /\ boundingBox h = mkBoundingBox (startPoint nextBoundingBox)
                                        (endPoint nextBoundingBox).
Proof.
  unfold iteration.
  destruct (slot (regionsOfInterest st) i) as [currentBox|]; [|discriminate].
  destruct (palmLandmarks currentBox !! PALM_LANDMARKS_INDEX_OF_PALM_BASE);
    [|discriminate].
  destruct (palmLandmarks currentBox !! PALM_LANDMARKS_INDEX_OF_MIDDLE_FINGER_BASE);
    [|discriminate].
  cbv zeta. destruct (predict _) as [confidenceValue rawCoords].
  destruct (JS.ge confidenceValue (cfg_minConfidence config)) eqn:Hge;
    [|discriminate].
  destruct (getBoxForHandLandmarks _) as [nextBoundingBox|] eqn:Hbox;
    [|discriminate].
  intros Heq. injection Heq as <- _ _. simpl. eauto.
Qed.

(** X13: every hand a call returns has a confidence that meets
    [config.minConfidence], has at least 18 landmarks, and has as bounding box
    the corners of the box [getBoxForHandLandmarks] computes from its own
    landmarks; and a call never returns more hands than the region list has
    slots afterwards. *)
Theorem returned_hands_well_formed
    (image : Image) (config : Config) (st : HandPipeline) (hs : list Hand) :
  result (estimateHands image config st) = Return (Some hs) ->
  Forall (fun h =>
            JS.ge (handInViewConfidence h) (cfg_minConfidence config) = true
            /\ (18 <= length (landmarks h))%nat
            /\ exists nextBoundingBox,
                 getBoxForHandLandmarks (landmarks h) = Some nextBoundingBox
                 /\ boundingBox h = mkBoundingBox (startPoint nextBoundingBox)
                                                  (endPoint nextBoundingBox)) hs
  /\ (length hs <= length (regionsOfInterest
                             (after (estimateHands image config st))))%nat.
Proof.
  intros Hres.
  assert (Hloop : forall useFreshBox keys st1 hs1 st2 evs,
            forRegions useFreshBox image config keys st1 = (Some hs1, st2, evs) ->
            Forall (fun h =>
              JS.ge (handInViewConfidence h) (cfg_minConfidence config) = true
              /\ (18 <= length (landmarks h))%nat
              /\ exists nextBoundingBox,
                   getBoxForHandLandmarks (landmarks h) = Some nextBoundingBox
                   /\ boundingBox h = mkBoundingBox (startPoint nextBoundingBox)
                                                    (endPoint nextBoundingBox)) hs1).
  { intros useFreshBox keys.
    induction keys as [|i keys IH]; intros st1 hs1 st2 evs Hrun; simpl in Hrun.
    - injection Hrun as <- _ _. constructor.
    - destruct (iteration useFreshBox image config i st1)
        as [[[pushed|] st1'] evs1] eqn:Hit; [|discriminate].
      destruct (forRegions _ _ _ keys st1') as [[[rest|] st''] evs'] eqn:Hrest;
        [|discriminate].
      injection Hrun as <- _ _. specialize (IH _ _ _ _ Hrest).
      destruct pushed as [h|]; simpl; [|exact IH].
      constructor; [|exact IH].
      destruct (iteration_hand _ _ _ _ _ _ _ _ Hit) as (Hge & nb & Hbox & Hbb).
      repeat apply conj; eauto.
      apply getBoxForHandLandmarks_is_Some. rewrite Hbox. eauto. }
  destruct (reconcile_cases image config st)
    as [(_ & _ & Hrec)|[(p & ps & _ & _ & Hrec & _)|(_ & Hrec)]].
  - rewrite (estimateHands_noHands _ _ _ _ _ Hrec) in Hres. discriminate.
  - destruct (estimateHands_returns _ _ _ _ _ _ _ Hrec Hres)
      as (st2 & evs & Hrun & _ & Haft).
    split; [exact (Hloop _ _ _ _ _ _ Hrun)|].
    destruct (forRegions_hands _ _ _ _ _ _ _ _ Hrun) as (_ & Hlen & _).
    destruct (forRegions_frame _ _ _ _ _ _ _ _ Hrun)
      as (_ & _ & _ & _ & Hsame & _).
    rewrite length_seq in Hlen. rewrite Haft. simpl. lia.
  - destruct (estimateHands_returns _ _ _ _ _ _ _ Hrec Hres)
      as (st2 & evs & Hrun & _ & Haft).
    split; [exact (Hloop _ _ _ _ _ _ Hrun)|].
    destruct (forRegions_hands _ _ _ _ _ _ _ _ Hrun) as (_ & Hlen & _).
    destruct (forRegions_frame _ _ _ _ _ _ _ _ Hrun)
      as (_ & _ & _ & _ & Hsame & _).
    rewrite length_seq in Hlen. rewrite Haft. simpl. lia.
Qed.

End PipelineFacts.

(** ** The test bench runs *)

(** C2: the stability property fails on the code.  The 10 x 10 square and the
    same square with its top edge lowered by 1.5 have intersection over union
    85/100, above 0.8, yet with the lowered square stored and the full square
    as new box the value computed is 85/115 and the stored box is replaced.
    Conversely the square lowered by 2 has intersection over union 80/100 with
    the full square, not above 0.8, yet with the full square stored the value
    computed is 1 and the stored box is kept. *)
Theorem stored_box_replaced_above_threshold :
  spec_iou Bench.square10 Bench.lowered1_5 = (85 / 100)%float
  /\ JS.gt (spec_iou Bench.square10 Bench.lowered1_5) 0.8%float = true
  /\ iou Bench.square10 Bench.lowered1_5 = (85 / 115)%float
  /\ regionsOfInterest
       (updateRegionsOfInterest Bench.square10 0 (Bench.tracking Bench.lowered1_5))
     = [Some Bench.square10]
  /\ JS.gt (spec_iou Bench.lowered2 Bench.square10) 0.8%float = false
  /\ regionsOfInterest
       (updateRegionsOfInterest Bench.lowered2 0 (Bench.tracking Bench.square10))
     = [Some Bench.square10].
Proof. repeat split; vm_compute; reflexivity. Qed.

(** C3: with [skipFrames = 5], one hand found and accepted on every frame, the
    detector runs on frame 1, not on frames 2 to 7, and then on frames 8 and 9
    (and on every later frame); the counter is 0 after frame 1 and goes up by
    one on every later frame, the frames on which the detector ran included.
    The same holds with [maxHands = 1] and with [maxHands = 2]. *)
Theorem skipFrames_five_runs :
  let report (o : outcome) :=
    (invokedDetector o, runsWithoutHandDetector (after o), detectedHands (after o)) in
  let expected :=
    [ (true, 0, 1); (false, 1, 1); (false, 2, 1); (false, 3, 1); (false, 4, 1);
      (false, 5, 1); (false, 6, 1); (true, 7, 1); (true, 8, 1) ] in
  map report (estimateHandsEach (replicate 9 (Bench.oneHand, Bench.config 5 1))
                                Bench.fresh) = expected
  /\ map report (estimateHandsEach (replicate 9 (Bench.oneHand, Bench.config 5 2))
                                   Bench.fresh) = expected.
Proof. split; vm_compute; reflexivity. Qed.

(** The pose module of the same file skips as the claim says: with
    [skipFrames = 5] its model runs on frame 1, not on frames 2 to 6, again on
    frame 7 and then on frame 13, the counter being reset on every run. *)
Lemma EfficientPose_skips_five :
  EfficientPose.predictEach 5 true (replicate 13 (Some 17%nat)) EfficientPose.initial
  = [ true; false; false; false; false; false;
      true; false; false; false; false; false; true ].
Proof. reflexivity. Qed.

(** C4 as stated fails: with [maxHands = 1] and a detector that returns two
    boxes, two slots are tracked and two hands returned. *)
Lemma maxHands_one_two_slots :
  cfg_maxHands (Bench.config 5 1) = 1
  /\ length (regionsOfInterest
               (after (estimateHands Bench.twoPalms (Bench.config 5 1) Bench.fresh)))
     = 2%nat
  /\ detectedHands (after (estimateHands Bench.twoPalms (Bench.config 5 1) Bench.fresh))
     = 2.
Proof. repeat split; vm_compute; reflexivity. Qed.

Lemma tracked_slots_follow_detector_witness :
  length (regionsOfInterest
            (after (estimateHands Bench.twoPalms (Bench.config 5 1) Bench.fresh)))
  = 2%nat
  /\ Z.of_nat (length (regionsOfInterest
                         (after (estimateHands Bench.oneHand (Bench.config 5 1)
                                               Bench.fresh)))) <= 1.
Proof.
  split.
  - exact (proj1 (tracked_slots_follow_detector
                    Bench.twoPalms (Bench.config 5 1) Bench.fresh)
                 _ eq_refl eq_refl).
  - apply (proj2 (tracked_slots_follow_detector
                    Bench.oneHand (Bench.config 5 1) Bench.fresh)).
    + simpl. lia.
    + simpl. lia.
    + intros ps Hps. injection Hps as <-. simpl. lia.
Defined.

Lemma detectedHands_zero_forces_detection_witness :
  invokedDetector (estimateHands Bench.noPalm (Bench.config 5 1) Bench.fresh) = true.
Proof.
  exact (proj1 (detectedHands_zero_forces_detection
                  Bench.noPalm (Bench.config 5 1) Bench.fresh eq_refl)).
Defined.

Lemma no_detection_clears_state_witness :
  estimateHands Bench.noPalm (Bench.config 5 1) Bench.lostHand
  = mkOutcome (Return None) (mkPipeline 256%float [] 3 5 0)
              [EstimateHandBounds; DisposeImage].
Proof.
  apply (no_detection_clears_state Bench.noPalm (Bench.config 5 1) Bench.lostHand).
  - reflexivity.
  - right. reflexivity.
Defined.

(** C6 as stated fails in its last part: a slot dropped for low confidence is
    still in the region list when the call returns, but it is not tried again
    on the next frame.  Here the first frame's hand is too faint and on the
    second frame the detector finds nothing: the second call runs the detector,
    clears the list and returns [null] without any pass. *)
Lemma dropped_slot_not_attempted_again :
  map (fun o => (result o, trace o, regionsOfInterest (after o)))
      (estimateHandsEach [ (Bench.faintHand, Bench.config 5 1);
                           (Bench.noPalm, Bench.config 5 1) ] Bench.fresh)
  = [ (Return (Some []), [EstimateHandBounds; Predict 0 0.2%float],
       [Some (Bench.palmBox 10 10 50 50)]);
      (Return None, [EstimateHandBounds; DisposeImage], []) ].
Proof. vm_compute. reflexivity. Qed.

Lemma low_confidence_dropped_silently_witness :
  regionsOfInterest
    (after (estimateHands Bench.faintHand (Bench.config 5 1) Bench.fresh)) !! 0%nat
  = Some (Some (Bench.palmBox 10 10 50 50))
  /\ reconcile Bench.noPalm (Bench.config 5 1)
       (after (estimateHands Bench.faintHand (Bench.config 5 1) Bench.fresh))
     = (NoHands (mkPipeline 256%float [] 0 5 0), [EstimateHandBounds; DisposeImage]).
Proof.
  destruct (proj2 (low_confidence_dropped_silently
                     Bench.faintHand (Bench.config 5 1) Bench.fresh)
                  true
                  (mkPipeline 256%float [Some (Bench.palmBox 10 10 50 50)] 0 5 0)
                  [EstimateHandBounds] [])
    as (_ & _ & Hdropped);
    [vm_compute; reflexivity|vm_compute; reflexivity|].
  destruct (Hdropped 0%nat 0.2%float) as [Hsame Hnext];
    [vm_compute; apply list_elem_of_further, list_elem_of_here
    |vm_compute; reflexivity|].
  specialize (Hnext Bench.noPalm (Bench.config 5 1)).
  vm_compute in Hsame, Hnext |- *.
  exact (conj Hsame Hnext).
Defined.

Lemma detectedHands_counts_returned_hands_witness :
  detectedHands (after (estimateHands Bench.twoPalms (Bench.config 5 2) Bench.fresh))
  = 2
  /\ invokedDetector
       (estimateHands Bench.oneHand (Bench.config 5 1)
          (after (estimateHands Bench.faintHand (Bench.config 5 1) Bench.fresh)))
     = true.
Proof.
  destruct (detectedHands_counts_returned_hands
              Bench.twoPalms (Bench.config 5 2) Bench.fresh) as (Hcount & _ & _).
  destruct (detectedHands_counts_returned_hands
              Bench.faintHand (Bench.config 5 1) Bench.fresh) as (_ & _ & Hnext).
  split.
  - etransitivity; [apply Hcount; vm_compute; reflexivity|].
    vm_compute. reflexivity.
  - apply (Hnext (Some [])); vm_compute; reflexivity.
Defined.

(** * Further properties *)

(** ** NaN and the infinities *)

Section FloatEdges.

Local Open Scope float_scope.

Lemma is_nan_spec (x : float) : is_nan x = true -> Prim2SF x = S754_nan.
Proof.
  unfold is_nan. rewrite FloatAxioms.eqb_spec. unfold SFeqb. intros Hx.
  destruct (Prim2SF x) as [s|s| |s m e] eqn:E; trivial;
    rewrite SFcompare_refl in Hx by congruence; discriminate.
Qed.

Lemma ltb_nan_r (x y : float) : is_nan y = true -> (x <? y) = false.
Proof.
  intros Hy%is_nan_spec. rewrite FloatAxioms.ltb_spec, Hy. unfold SFltb.
  now destruct (Prim2SF x).
Qed.

Lemma leb_nan_l (x y : float) : is_nan x = true -> (x <=? y) = false.
Proof.
  intros Hx%is_nan_spec. now rewrite FloatAxioms.leb_spec, Hx.
Qed.

Lemma leb_nan_r (x y : float) : is_nan y = true -> (x <=? y) = false.
Proof.
  intros Hy%is_nan_spec. rewrite FloatAxioms.leb_spec, Hy. unfold SFleb.
  now destruct (Prim2SF x).
Qed.

Lemma Prim2SF_inj (x y : float) : Prim2SF x = Prim2SF y -> x = y.
Proof.
  intros E. rewrite <- (SF2Prim_Prim2SF x), <- (SF2Prim_Prim2SF y). now rewrite E.
Qed.

(** A number that is not below +Infinity is +Infinity, and one that is not
    above -Infinity is -Infinity. *)
Lemma not_below_infinity (x : float) :
  is_nan x = false -> (x <? infinity) = false -> x = infinity.
Proof.
  intros Hx%not_nan_spec Hlt. apply Prim2SF_inj.
  rewrite FloatAxioms.ltb_spec in Hlt. unfold SFltb in Hlt.
  change (Prim2SF infinity) with (S754_infinity false) in *.
  destruct (Prim2SF x) as [s|[]| |[] m e]; simpl in Hlt;
    try congruence; try discriminate; destruct s; discriminate.
Qed.

Lemma not_above_neg_infinity (x : float) :
  is_nan x = false -> (neg_infinity <? x) = false -> x = neg_infinity.
Proof.
  intros Hx%not_nan_spec Hlt. apply Prim2SF_inj.
  rewrite FloatAxioms.ltb_spec in Hlt. unfold SFltb in Hlt.
  change (Prim2SF neg_infinity) with (S754_infinity true) in *.
  destruct (Prim2SF x) as [s|[]| |[] m e]; simpl in Hlt;
    try congruence; try discriminate; destruct s; discriminate.
Qed.

Lemma min_from_nan (xs : list float) :
  Exists (fun x => is_nan x = true) xs ->
  forall lowest, JS.min_from lowest xs = nan.
Proof.
  induction 1 as [x xs Hx|x xs _ IH]; intros lowest; simpl.
  - now rewrite Hx.
  - destruct (is_nan x); [reflexivity|apply IH].
Qed.

Lemma max_from_nan (xs : list float) :
  Exists (fun x => is_nan x = true) xs ->
  forall highest, JS.max_from highest xs = nan.
Proof.
  induction 1 as [x xs Hx|x xs _ IH]; intros highest; simpl.
  - now rewrite Hx.
  - destruct (is_nan x); [reflexivity|apply IH].
Qed.

Lemma min_from_elem (xs : list float) :
  numbers xs -> forall lowest, JS.min_from lowest xs ∈ lowest :: xs.
Proof.
  induction 1 as [|x xs Hx _ IH]; intros lowest; simpl; [left|].
  rewrite Hx.
  match goal with |- JS.min_from ?l _ ∈ _ => specialize (IH l) end.
  apply elem_of_cons in IH as [IH|IH]; [|now do 2 right].
  rewrite IH.
  destruct (JS.is_neg_zero x && JS.is_pos_zero lowest);
    destruct (_ <? _); first [now left | right; now left].
Qed.

Lemma max_from_elem (xs : list float) :
  numbers xs -> forall highest, JS.max_from highest xs ∈ highest :: xs.
Proof.
  induction 1 as [|x xs Hx _ IH]; intros highest; simpl; [left|].
  rewrite Hx.
  match goal with |- JS.max_from ?h _ ∈ _ => specialize (IH h) end.
  apply elem_of_cons in IH as [IH|IH]; [|now do 2 right].
  rewrite IH.
  destruct (JS.is_pos_zero x && JS.is_neg_zero highest);
    destruct (_ <? _); first [now left | right; now left].
Qed.

(** [Math.min] and [Math.max] of a non-empty array of numbers are elements
    of the array. *)
Lemma Math_min_elem (xs : list float) :
  xs <> [] -> numbers xs -> JS.Math_min xs ∈ xs.
Proof.
  intros Hne Hxs. destruct xs as [|x xs]; [congruence|].
  pose proof (Forall_inv Hxs) as Hx. pose proof (Forall_inv_tail Hxs) as Hrest.
  unfold JS.Math_min. simpl. rewrite Hx. cbn [andb].
  replace (JS.is_neg_zero x && JS.is_pos_zero infinity) with false
    by now rewrite andb_false_r.
  destruct (x <? infinity) eqn:Hlt.
  - apply min_from_elem, Hrest.
  - rewrite <- (not_below_infinity x Hx Hlt). apply min_from_elem, Hrest.
Qed.

Lemma Math_max_elem (xs : list float) :
  xs <> [] -> numbers xs -> JS.Math_max xs ∈ xs.
Proof.
  intros Hne Hxs. destruct xs as [|x xs]; [congruence|].
  pose proof (Forall_inv Hxs) as Hx. pose proof (Forall_inv_tail Hxs) as Hrest.
  unfold JS.Math_max. simpl. rewrite Hx. cbn [andb].
  replace (JS.is_pos_zero x && JS.is_neg_zero neg_infinity) with false
    by now rewrite andb_false_r.
  destruct (neg_infinity <? x) eqn:Hlt.
  - apply max_from_elem, Hrest.
  - rewrite <- (not_above_neg_infinity x Hx Hlt). apply max_from_elem, Hrest.
Qed.

End FloatEdges.

(** ** More on the landmark bounding box *)

(** X1: the box returned by [calculateLandmarksBoundingBox] contains every
    landmark it was computed from, when no x or y coordinate is NaN. *)
Theorem calculateLandmarksBoundingBox_contains
    {A : Type} `{Landmark A} (landmarks : list A) (d : A) :
  numbers (map coord0 landmarks) ->
  numbers (map coord1 landmarks) ->
  d ∈ landmarks ->
  fle (fst (startPoint (calculateLandmarksBoundingBox landmarks))) (coord0 d)
  /\ fle (coord0 d) (fst (endPoint (calculateLandmarksBoundingBox landmarks)))
  /\ fle (snd (startPoint (calculateLandmarksBoundingBox landmarks))) (coord1 d)
  /\ fle (coord1 d) (snd (endPoint (calculateLandmarksBoundingBox landmarks))).
Proof.
  intros Hxs Hys Hd. unfold calculateLandmarksBoundingBox; simpl.
  pose proof (list_elem_of_fmap_2 coord0 _ _ Hd) as Hx.
  pose proof (list_elem_of_fmap_2 coord1 _ _ Hd) as Hy.
  destruct (min_from_below _ Hxs infinity eq_refl) as [_ Hminx].
  destruct (max_from_above _ Hxs neg_infinity eq_refl) as [_ Hmaxx].
  destruct (min_from_below _ Hys infinity eq_refl) as [_ Hminy].
  destruct (max_from_above _ Hys neg_infinity eq_refl) as [_ Hmaxy].
  rewrite Forall_forall in Hminx, Hmaxx, Hminy, Hmaxy.
  repeat apply conj; auto.
Qed.

Lemma calculateLandmarksBoundingBox_contains_witness :
  fle (fst (startPoint (calculateLandmarksBoundingBox Bench.hand21))) 55
  /\ fle 55 (fst (endPoint (calculateLandmarksBoundingBox Bench.hand21)))
  /\ fle (snd (startPoint (calculateLandmarksBoundingBox Bench.hand21))) 140
  /\ fle 140 (snd (endPoint (calculateLandmarksBoundingBox Bench.hand21))).
Proof.
  pose proof (calculateLandmarksBoundingBox_contains
                Bench.hand21 (55, 140, -8)%float) as Hin.
  apply Hin.
  - repeat constructor.
  - repeat constructor.
  - do 4 right. left.
Defined.

(** X2: the box is tight: for a non-empty list of landmarks without NaN, each
    of the four corner coordinates is that coordinate of one of the
    landmarks. *)
Theorem calculateLandmarksBoundingBox_tight
    {A : Type} `{Landmark A} (landmarks : list A) :
  landmarks <> [] ->
  numbers (map coord0 landmarks) ->
  numbers (map coord1 landmarks) ->
  (exists d, d ∈ landmarks
     /\ fst (startPoint (calculateLandmarksBoundingBox landmarks)) = coord0 d)
  /\ (exists d, d ∈ landmarks
        /\ snd (startPoint (calculateLandmarksBoundingBox landmarks)) = coord1 d)
  /\ (exists d, d ∈ landmarks
        /\ fst (endPoint (calculateLandmarksBoundingBox landmarks)) = coord0 d)
  /\ (exists d, d ∈ landmarks
        /\ snd (endPoint (calculateLandmarksBoundingBox landmarks)) = coord1 d).
Proof.
  intros Hne Hxs Hys. unfold calculateLandmarksBoundingBox; simpl.
  assert (Hnx : map coord0 landmarks <> []) by (destruct landmarks; simpl; congruence).
  assert (Hny : map coord1 landmarks <> []) by (destruct landmarks; simpl; congruence).
  repeat apply conj.
  - destruct (proj1 (list_elem_of_fmap _ _ _) (Math_min_elem _ Hnx Hxs))
      as (d & -> & Hd); eauto.
  - destruct (proj1 (list_elem_of_fmap _ _ _) (Math_min_elem _ Hny Hys))
      as (d & -> & Hd); eauto.
  - destruct (proj1 (list_elem_of_fmap _ _ _) (Math_max_elem _ Hnx Hxs))
      as (d & -> & Hd); eauto.
  - destruct (proj1 (list_elem_of_fmap _ _ _) (Math_max_elem _ Hny Hys))
      as (d & -> & Hd); eauto.
Qed.

Lemma calculateLandmarksBoundingBox_tight_witness :
  exists d, d ∈ Bench.hand21
    /\ fst (startPoint (calculateLandmarksBoundingBox Bench.hand21)) = coord0 d.
Proof.
  pose proof (calculateLandmarksBoundingBox_tight Bench.hand21) as Htight.
  destruct Htight as [Hleft _]; [discriminate|repeat constructor..|exact Hleft].
Defined.

(** X3: NaN is contagious: if the x coordinate of some landmark is NaN, both x
    corners of the box are NaN and the box invariant fails; likewise for y. *)
Theorem calculateLandmarksBoundingBox_nan
    {A : Type} `{Landmark A} (landmarks : list A) (d : A) :
  d ∈ landmarks ->
  is_nan (coord0 d) = true \/ is_nan (coord1 d) = true ->
  boxInvariant (calculateLandmarksBoundingBox landmarks) = false
  /\ (is_nan (coord0 d) = true ->
      fst (startPoint (calculateLandmarksBoundingBox landmarks)) = nan
      /\ fst (endPoint (calculateLandmarksBoundingBox landmarks)) = nan)
  /\ (is_nan (coord1 d) = true ->
      snd (startPoint (calculateLandmarksBoundingBox landmarks)) = nan
      /\ snd (endPoint (calculateLandmarksBoundingBox landmarks)) = nan).
Proof.
  intros Hd Hnan.
  assert (Hx : is_nan (coord0 d) = true ->
               Exists (fun x => is_nan x = true) (map coord0 landmarks)).
  { intros Hx. apply Exists_exists. exists (coord0 d).
    split; [now apply list_elem_of_fmap_2|exact Hx]. }
  assert (Hy : is_nan (coord1 d) = true ->
               Exists (fun x => is_nan x = true) (map coord1 landmarks)).
  { intros Hy. apply Exists_exists. exists (coord1 d).
    split; [now apply list_elem_of_fmap_2|exact Hy]. }
  unfold boxInvariant, calculateLandmarksBoundingBox, JS.Math_min, JS.Math_max;
    simpl.
  repeat apply conj.
  - destruct Hnan as [Hn|Hn].
    + rewrite (min_from_nan _ (Hx Hn)). now rewrite leb_nan_l.
    + rewrite (min_from_nan _ (Hy Hn)), (leb_nan_l nan) by reflexivity.
      apply andb_false_r.
  - intros Hn. now rewrite (min_from_nan _ (Hx Hn)), (max_from_nan _ (Hx Hn)).
  - intros Hn. now rewrite (min_from_nan _ (Hy Hn)), (max_from_nan _ (Hy Hn)).
Qed.

Lemma calculateLandmarksBoundingBox_nan_witness :
  boxInvariant
    (calculateLandmarksBoundingBox [(1, 2, 0); (nan, 3, 0)]%float) = false.
Proof.
  apply (calculateLandmarksBoundingBox_nan
           [(1, 2, 0); (nan, 3, 0)]%float (nan, 3, 0)%float).
  - right. left.
  - left. reflexivity.
Defined.

(** ** More on the IoU gate *)

Lemma slot_setSlot_out_of_range (regions : list (option Box)) (i : nat)
    (b : option Box) :
  (length regions <= i)%nat ->
  setSlot regions i b !! i = Some b
  /\ length (setSlot regions i b) = S i
  /\ forall j, j <> i -> slot (setSlot regions i b) j = slot regions j.
Proof.
  intros Hi. unfold setSlot. rewrite decide_False by lia.
  repeat apply conj.
  - rewrite lookup_app_r by lia.
    rewrite lookup_app_r by (rewrite length_replicate; lia).
    rewrite length_replicate. now replace (i - length regions - (i - length regions))%nat
      with 0%nat by lia.
  - rewrite !length_app, length_replicate. simpl. lia.
  - intros j Hj. unfold slot.
    destruct (decide (j < length regions)%nat) as [Hlt|Hge].
    + now rewrite lookup_app_l.
    + rewrite (lookup_ge_None_2 regions j) by lia.
      rewrite lookup_app_r by lia.
      destruct (decide (j < i)%nat) as [Hji|Hji].
      * rewrite lookup_app_l by (rewrite length_replicate; lia).
        now rewrite lookup_replicate_2 by lia.
      * rewrite lookup_app_r by (rewrite length_replicate; lia).
        rewrite length_replicate.
        now rewrite lookup_ge_None_2 by (simpl; lia).
Qed.

Lemma updateRegionsOfInterest_on_empty
    (newBox : Box) (i : nat) (st : HandPipeline) :
  slot (regionsOfInterest st) i = None ->
  slot (regionsOfInterest (updateRegionsOfInterest newBox i st)) i = Some newBox
  /\ length (regionsOfInterest (updateRegionsOfInterest newBox i st))
     = Nat.max (length (regionsOfInterest st)) (S i)
  /\ forall j, j <> i ->
       slot (regionsOfInterest (updateRegionsOfInterest newBox i st)) j
       = slot (regionsOfInterest st) j.
Proof.
  intros Hnone. unfold updateRegionsOfInterest. rewrite Hnone.
  change (JS.gt 0 UPDATE_REGION_OF_INTEREST_IOU_THRESHOLD) with false.
  cbv iota. simpl.
  destruct (decide (i < length (regionsOfInterest st))%nat) as [Hlt|Hge].
  - rewrite setSlot_in_range by exact Hlt. repeat apply conj.
    + unfold slot. now rewrite list_lookup_insert_eq.
    + rewrite length_insert. lia.
    + intros j Hj. unfold slot. now rewrite list_lookup_insert_ne.
  - destruct (slot_setSlot_out_of_range (regionsOfInterest st) i (Some newBox))
      as (Hat & Hlen & Hothers); [lia|].
    repeat apply conj.
    + unfold slot. now rewrite Hat.
    + rewrite Hlen. lia.
    + exact Hothers.
Qed.

(** X4: when slot [i] holds no box (an empty entry, or an index past the end
    of the array), [updateRegionsOfInterest newBox i] stores the new box there
    whatever it is; the array grows to length [i + 1] if it was shorter, and
    every other slot reads as before. *)
Theorem updateRegionsOfInterest_empty_slot
    (newBox : Box) (i : nat) (st : HandPipeline) :
  slot (regionsOfInterest st) i = None ->
  slot (regionsOfInterest (updateRegionsOfInterest newBox i st)) i = Some newBox
  /\ length (regionsOfInterest (updateRegionsOfInterest newBox i st))
     = Nat.max (length (regionsOfInterest st)) (S i)
  /\ forall j, j <> i ->
       slot (regionsOfInterest (updateRegionsOfInterest newBox i st)) j
       = slot (regionsOfInterest st) j.
Proof. apply updateRegionsOfInterest_on_empty. Qed.

Lemma updateRegionsOfInterest_empty_slot_witness :
  regionsOfInterest (updateRegionsOfInterest Bench.square10 2 Bench.fresh)
  = [None; None; Some Bench.square10]
  /\ slot (regionsOfInterest (updateRegionsOfInterest Bench.square10 2 Bench.fresh)) 2
     = Some Bench.square10.
Proof.
  split; [reflexivity|].
  pose proof (updateRegionsOfInterest_empty_slot Bench.square10 2 Bench.fresh) as Hempty.
  apply Hempty. reflexivity.
Defined.

(** X5: applying the same update twice is the same as applying it once: the
    box an update leaves in a slot is kept by a second update with the same
    new box, whatever the IoU computation gives. *)
Theorem updateRegionsOfInterest_idempotent
    (newBox : Box) (i : nat) (st : HandPipeline) :
  updateRegionsOfInterest newBox i (updateRegionsOfInterest newBox i st)
  = updateRegionsOfInterest newBox i st.
Proof.
  destruct (slot (regionsOfInterest st) i) as [previousBox|] eqn:Hslot.
  - destruct (updateRegionsOfInterest_gate newBox previousBox i st Hslot)
      as (_ & Hat & Hupd).
    destruct (updateRegionsOfInterest_gate newBox _ i _ Hat) as (_ & _ & ->).
    rewrite Hupd. unfold withRegions; simpl. f_equal.
    rewrite list_insert_insert_eq. do 2 f_equal.
    destruct (JS.gt (iou newBox previousBox) 0.8) eqn:Hgt.
    + now rewrite Hgt.
    + now destruct (JS.gt (iou newBox newBox) 0.8).
  - destruct (updateRegionsOfInterest_on_empty newBox i st Hslot) as (Hat & _).
    destruct (updateRegionsOfInterest_gate newBox _ i _ Hat) as (_ & _ & ->).
    assert (Hsame : (if JS.gt (iou newBox newBox) 0.8 then newBox else newBox)
                    = newBox) by now destruct (JS.gt _ _).
    rewrite Hsame. apply slot_Some in Hat.
    rewrite list_insert_id by exact Hat. now destruct (updateRegionsOfInterest _ _ _).
Qed.

(** X6: when the value computed for the new and the previous box is NaN (as
    for two identical boxes of zero area, where it is 0/0), the comparison
    with the threshold is false and the new box is stored. *)
Theorem updateRegionsOfInterest_nan
    (newBox previousBox : Box) (i : nat) (st : HandPipeline) :
  slot (regionsOfInterest st) i = Some previousBox ->
  is_nan (iou newBox previousBox) = true ->
  slot (regionsOfInterest (updateRegionsOfInterest newBox i st)) i = Some newBox.
Proof.
  intros Hslot Hnan.
  destruct (updateRegionsOfInterest_gate newBox previousBox i st Hslot)
    as (_ & -> & _).
  unfold JS.gt. now rewrite ltb_nan_r.
Qed.

Lemma updateRegionsOfInterest_nan_witness :
  is_nan (iou Bench.pointBox Bench.storedPointBox) = true
  /\ slot (regionsOfInterest
             (updateRegionsOfInterest Bench.pointBox 0
                (Bench.tracking Bench.storedPointBox))) 0
     = Some Bench.pointBox.
Proof.
  split; [reflexivity|].
  pose proof (updateRegionsOfInterest_nan Bench.pointBox Bench.storedPointBox
                0 (Bench.tracking Bench.storedPointBox)) as Hnan.
  apply Hnan; reflexivity.
Defined.

(** ** More test bench runs *)


Lemma multi_hand_replaces_regions_witness :
  reconcile Bench.twoPalms (Bench.config 5 2) Bench.overdue
  = (Track true
       (mkPipeline 256%float
          [Some (Bench.palmBox 10 10 50 50); Some (Bench.palmBox 200 200 260 260)]
          0 5 1),
     [EstimateHandBounds]).
Proof.
  pose proof (multi_hand_replaces_regions
                Bench.twoPalms (Bench.config 5 2) Bench.overdue
                [Bench.palmBox 10 10 50 50; Bench.palmBox 200 200 260 260])
    as Hreplace.
  apply Hreplace; [reflexivity|simpl; lia|simpl; lia|reflexivity|discriminate
                  |simpl; lia].
Defined.

Lemma throw_leaves_detectedHands_witness :
  result (estimateHands Bench.shortHand (Bench.config 5 1) Bench.overdue) = Throw
  /\ detectedHands
       (after (estimateHands Bench.shortHand (Bench.config 5 1) Bench.overdue)) = 1.
Proof.
  assert (Hthrow : result (estimateHands Bench.shortHand (Bench.config 5 1)
                                         Bench.overdue) = Throw)
    by (vm_compute; reflexivity).
  split; [exact Hthrow|].
  pose proof (throw_leaves_detectedHands
                Bench.shortHand (Bench.config 5 1) Bench.overdue Hthrow)
    as [Hkept _].
  exact Hkept.
Defined.

Lemma returned_hands_well_formed_witness :
  (2 <= length (regionsOfInterest
                  (after (estimateHands Bench.twoPalms (Bench.config 5 2)
                                        Bench.fresh))))%nat.
Proof.
  edestruct (returned_hands_well_formed
               Bench.twoPalms (Bench.config 5 2) Bench.fresh) as [_ Hlen];
    [vm_compute; reflexivity|].
  exact Hlen.
Defined.

(** ** The pose module *)

Section PoseFacts.

Variable Math_round : float -> float.

Local Abbreviation predict := (Pose.predict Math_round).
Local Abbreviation predictEach := (Pose.predictEach Math_round).
Local Abbreviation stateAfter := (Pose.stateAfter Math_round).

Lemma Pose_cached_step (shape1 shape2 : float) (output : option (list Pose.Row))
    (config : Pose.Config) (st : Pose.State) :
  Pose.cached config st = true ->
  predict shape1 shape2 output config st
  = (false, Pose.body st,
     Pose.mkState (Pose.keypoints st) (Pose.box st) (Pose.boxRaw st)
                  (Pose.moduleScore st) (Pose.skipped st + 1)).
Proof. intros Hc. unfold Pose.predict. now rewrite Hc. Qed.

Lemma Pose_cached_streak (config : Pose.Config)
    (frames : list (float * float * option (list Pose.Row))) :
  Pose.skipFrame config = true ->
  forall st,
    Pose.keypoints st <> [] ->
    Pose.skipped st + Z.of_nat (length frames) <= Pose.skipFrames config ->
    predictEach frames config st = map (fun _ => (false, Pose.body st)) frames
    /\ stateAfter frames config st
       = Pose.mkState (Pose.keypoints st) (Pose.box st) (Pose.boxRaw st)
                      (Pose.moduleScore st)
                      (Pose.skipped st + Z.of_nat (length frames)).
Proof.
  intros Hskip.
  induction frames as [|[[shape1 shape2] output] frames IH]; intros st Hkp Hle.
  - simpl. rewrite Z.add_0_r. now destruct st.
  - assert (Hc : Pose.cached config st = true).
    { unfold Pose.cached. rewrite Hskip.
      destruct (Pose.keypoints st); [congruence|].
      simpl length in *. apply andb_true_intro; split; [|reflexivity].
      rewrite andb_true_r. apply Z.ltb_lt. lia. }
    cbn [Pose.predictEach Pose.stateAfter map].
    rewrite (Pose_cached_step shape1 shape2 output config st Hc).
    cbn [snd].
    match goal with |- context [Pose.predictEach _ _ _ ?s] => specialize (IH s) end.
    destruct IH as [IHeach IHafter]; [exact Hkp|simpl in *; lia|].
    rewrite IHeach, IHafter. simpl. split; [reflexivity|].
    f_equal. lia.
Qed.


(** X15: when the model is asked and no row of its output has a score above
    [minConfidence] (or there is no row), the body returned has no keypoint,
    score 0 and the boxes [[Infinity, Infinity, -Infinity, -Infinity]]; and the
    following call goes to the model again whatever [skipFrames] is, because
    the module holds no keypoint. *)
Theorem Pose_nothing_found (shape1 shape2 : float) (kpt : list Pose.Row)
    (config : Pose.Config) (st : Pose.State) :
  Pose.cached config st = false ->
  Pose.enabled config = true ->
  Forall (fun row : Pose.Row => JS.gt (snd row) (Pose.minConfidence config) = false)
         kpt ->
  let empty := (infinity, infinity, neg_infinity, neg_infinity) in
  predict shape1 shape2 (Some kpt) config st
  = (true, Pose.mkBody 0 0%float empty empty [],
     Pose.mkState [] empty empty 0%float 0)
  /\ forall config',
       Pose.cached config' (snd (predict shape1 shape2 (Some kpt) config st))
       = false.
Proof.
  intros Hc Hen Hlow. cbv zeta.
  assert (Hext : forall id0, Pose.extract Math_round config shape1 shape2 id0 kpt = []).
  { induction Hlow as [|[[r0 r1] r2] kpt Hrow _ IH]; intros id0; simpl;
      [reflexivity|].
    simpl in Hrow. rewrite Hrow. apply IH. }
  unfold Pose.predict. rewrite Hc, Hen, Hext.
  split; [reflexivity|].
  intros config'. unfold Pose.cached. simpl. apply andb_false_r.
Qed.

Lemma Pose_bestScore_from (kps : list Pose.Keypoint) :
  numbers (map Pose.score kps) ->
  forall acc, is_nan acc = false ->
    let best :=
      fold_left (fun prev curr =>
                   if JS.gt (Pose.score curr) prev then Pose.score curr else prev)
                kps acc in
    is_nan best = false
    /\ fle acc best
    /\ Forall (fun k => fle (Pose.score k) best) kps
    /\ best ∈ acc :: map Pose.score kps.
Proof.
  intros Hkps. cbv zeta.
  induction kps as [|k kps IH]; intros acc Hacc; simpl.
  - repeat apply conj; auto using fle_refl. left.
  - apply Forall_cons in Hkps as [Hk Hkps]. specialize (IH Hkps).
    change (JS.gt (Pose.score k) acc) with (acc <? Pose.score k)%float.
    destruct (acc <? Pose.score k)%float eqn:Hlt.
    + destruct (IH (Pose.score k) Hk) as (Hn & Hle & Hall & Hin).
      split; [exact Hn|]. split.
      { eapply fle_trans; [apply ltb_fle, Hlt|exact Hle]. }
      split; [constructor; [exact Hle|exact Hall]|].
      now right.
    + destruct (IH acc Hacc) as (Hn & Hle & Hall & Hin).
      split; [exact Hn|]. split; [exact Hle|]. split.
      { constructor; [|exact Hall].
        eapply fle_trans; [apply (nltb_fle acc (Pose.score k)); auto|exact Hle]. }
      apply elem_of_cons in Hin as [Hin|Hin]; [rewrite Hin; left|now do 2 right].
Qed.

(** X16: the score of a body, computed on line 269, is 0 or the score of one
    of its keypoints, is at least 0 and at least the score of every
    keypoint, when no keypoint score is NaN. *)
Theorem Pose_bestScore_bounds (kps : list Pose.Keypoint) :
  numbers (map Pose.score kps) ->
  fle 0 (Pose.bestScore kps)
  /\ Forall (fun k => fle (Pose.score k) (Pose.bestScore kps)) kps
  /\ (Pose.bestScore kps = 0%float
      \/ exists k, k ∈ kps /\ Pose.bestScore kps = Pose.score k).
Proof.
  intros Hkps. unfold Pose.bestScore.
  destruct (Pose_bestScore_from kps Hkps 0%float eq_refl) as (_ & Hle & Hall & Hin).
  repeat apply conj; auto.
  apply elem_of_cons in Hin as [Hin|Hin]; [now left|right].
  apply list_elem_of_fmap in Hin as (k & Hk & Hin). eauto.
Qed.

(** With the body model disabled a call that is not answered from the
    module variables never looks at the model output: the keypoints stay as
    they were, the counter is reset, and score and boxes are computed again
    from the same keypoints. *)
Lemma Pose_disabled_keeps_keypoints (shape1 shape2 : float)
    (output : option (list Pose.Row)) (config : Pose.Config) (st : Pose.State) :
  Pose.cached config st = false ->
  Pose.enabled config = false ->
  predict shape1 shape2 output config st
  = (true,
     Pose.mkBody 0 (Pose.bestScore (Pose.keypoints st))
       (Pose.rectOf (map Pose.position (Pose.keypoints st)))
       (Pose.rectOf (map Pose.positionRaw (Pose.keypoints st)))
       (Pose.keypoints st),
     Pose.mkState (Pose.keypoints st)
       (Pose.rectOf (map Pose.position (Pose.keypoints st)))
       (Pose.rectOf (map Pose.positionRaw (Pose.keypoints st)))
       (Pose.bestScore (Pose.keypoints st)) 0).
Proof.
  intros Hc Hen. unfold Pose.predict. now rewrite Hc, Hen.
Qed.

End PoseFacts.

(** ** Runs of the pose module *)


Lemma Pose_nothing_found_witness :
  fst (Pose.predict Pose.roundWhole 480 640 (Some Pose.noneAbove)
         Pose.skipTwo Pose.initial)
  = (true, Pose.mkBody 0 0%float
             (infinity, infinity, neg_infinity, neg_infinity)
             (infinity, infinity, neg_infinity, neg_infinity) []).
Proof.
  pose proof (Pose_nothing_found Pose.roundWhole 480 640 Pose.noneAbove
                Pose.skipTwo Pose.initial) as Hnone.
  destruct Hnone as [Hrun _];
    [reflexivity|reflexivity|repeat constructor|].
  rewrite Hrun. reflexivity.
Defined.

Lemma Pose_bestScore_bounds_witness :
  fle 0 (Pose.bestScore (Pose.keypoints Pose.found)).
Proof.
  pose proof (Pose_bestScore_bounds (Pose.keypoints Pose.found)) as Hbounds.
  apply Hbounds. repeat constructor.
Defined.


(** ** The drawing primitives *)

Section DrawFacts.

Variable colorDepth : float -> bool * bool * bool -> string.
Variable Math_round : float -> float.

Local Abbreviation lines := (Draw.lines colorDepth Math_round).
Local Abbreviation curves := (Draw.curves colorDepth Math_round).
Local Abbreviation lineTo := (Draw.lineTo colorDepth Math_round).
Local Abbreviation styleOf := (Draw.styleOf colorDepth).

(** X17: with fewer than two points [lines] and [curves] do nothing at all:
    no path method is called and no style property is set, not even
    [lineWidth]. *)
Theorem Draw_fewer_than_two_points
    (ctx : Draw.Context) (points : list Draw.Point3) (o : Draw.DrawOptions) :
  (length points < 2)%nat ->
  lines ctx points o = ctx /\ curves ctx points o = ctx.
Proof.
  intros Hlen. destruct points as [|p [|q rest]]; simpl in *; auto; lia.
Qed.

Lemma Draw_lineTo_fold (o : Draw.DrawOptions) (points : list Draw.Point3) :
  forall ctx,
    Draw.calls (fold_left (lineTo o) points ctx)
    = Draw.calls ctx
      ++ map (fun pt => Draw.LineTo (fst (fst pt)) (Math_round (snd (fst pt)))) points
    /\ Draw.ctx_lineWidth (fold_left (lineTo o) points ctx) = Draw.ctx_lineWidth ctx
    /\ forall final, last points = Some final ->
         Draw.strokeStyle (fold_left (lineTo o) points ctx) = styleOf o final
         /\ Draw.fillStyle (fold_left (lineTo o) points ctx) = styleOf o final.
Proof.
  induction points as [|pt points IH]; intros ctx; simpl.
  - rewrite app_nil_r. repeat apply conj; auto. discriminate.
  - destruct (IH (lineTo o ctx pt)) as (Hcalls & Hwidth & Hlast).
    rewrite Hcalls, Hwidth. simpl. rewrite <- app_assoc. simpl.
    repeat apply conj; auto.
    intros final Hfinal. destruct points as [|q points].
    + injection Hfinal as <-. simpl. auto.
    + apply Hlast. exact Hfinal.
Qed.

(** X18: with two points or more [lines] begins a path, moves to the first
    point, draws a line to every point (the first included, each y rounded),
    and strokes once; the stroke and fill styles it leaves are those of the
    last point alone, whatever the depths of the others; the path is closed
    and filled only with [fillPolygons]. *)
Theorem Draw_lines_path
    (ctx : Draw.Context) (first final : Draw.Point3) (points : list Draw.Point3)
    (o : Draw.DrawOptions) :
  (2 <= length points)%nat ->
  head points = Some first ->
  last points = Some final ->
  Draw.calls (lines ctx points o)
  = Draw.calls ctx
    ++ [Draw.BeginPath; Draw.MoveTo (fst (fst first)) (snd (fst first))]
    ++ map (fun pt => Draw.LineTo (fst (fst pt)) (Math_round (snd (fst pt)))) points
    ++ Draw.Stroke
       :: (if Draw.fillPolygons o then [Draw.ClosePath; Draw.Fill] else [])
  /\ Draw.strokeStyle (lines ctx points o) = styleOf o final
  /\ Draw.fillStyle (lines ctx points o) = styleOf o final
  /\ Draw.ctx_lineWidth (lines ctx points o) = Draw.ctx_lineWidth ctx.
Proof.
  intros Hlen Hfirst Hfinal.
  destruct points as [|p [|q rest]]; simpl in Hlen; try lia.
  injection Hfirst as <-.
  set (start := Draw.invoke (Draw.MoveTo (fst (fst p)) (snd (fst p)))
                            (Draw.invoke Draw.BeginPath ctx)).
  assert (Heq : lines ctx (p :: q :: rest) o
                = let c := Draw.invoke Draw.Stroke
                             (fold_left (lineTo o) (p :: q :: rest) start) in
                  if Draw.fillPolygons o
                  then Draw.invoke Draw.Fill (Draw.invoke Draw.ClosePath c) else c)
    by reflexivity.
  rewrite Heq. cbv zeta. clear Heq.
  destruct (Draw_lineTo_fold o (p :: q :: rest) start) as (Hcalls & Hwidth & Hlast).
  destruct (Hlast final Hfinal) as [Hstroke Hfill].
  destruct (Draw.fillPolygons o);
    cbn [Draw.invoke Draw.calls Draw.strokeStyle Draw.fillStyle Draw.ctx_lineWidth];
    rewrite Hcalls, Hstroke, Hfill, Hwidth;
    repeat apply conj; try reflexivity;
    subst start; cbn [Draw.invoke Draw.calls];
    rewrite <- !app_assoc; reflexivity.
Qed.

(** With two points or more, when [useCurves] is off or there are
    exactly two points, [curves] sets [lineWidth] and then draws exactly what
    [lines] draws. *)
Lemma Draw_curves_falls_back_to_lines
    (ctx : Draw.Context) (points : list Draw.Point3) (o : Draw.DrawOptions) :
  (2 <= length points)%nat ->
  Draw.useCurves o = false \/ length points = 2%nat ->
  curves ctx points o = lines (Draw.setLineWidth (Draw.lineWidth o) ctx) points o.
Proof.
  intros Hlen Hwhy. destruct points as [|p [|q rest]]; simpl in Hlen; try lia.
  unfold Draw.curves.
  replace (negb (Draw.useCurves o) || (length (p :: q :: rest) <=? 2)%nat)
    with true; [reflexivity|].
  symmetry. destruct Hwhy as [->|Hlen2]; [reflexivity|].
  rewrite Hlen2. apply orb_true_r.
Qed.

Lemma Draw_invoke_fold (cs : list Draw.call) :
  forall ctx,
    fold_left (fun ctx c => Draw.invoke c ctx) cs ctx
    = Draw.mkContext (Draw.ctx_lineWidth ctx) (Draw.strokeStyle ctx)
                     (Draw.fillStyle ctx) (Draw.calls ctx ++ cs).
Proof.
  induction cs as [|c cs IH]; intros ctx; simpl.
  - rewrite app_nil_r. now destruct ctx.
  - rewrite IH. simpl. now rewrite <- app_assoc.
Qed.

Lemma Draw_midpointCurves_length (points : list Draw.Point3) :
  length (Draw.midpointCurves points) = (length points - 2)%nat.
Proof.
  induction points as [|a [|b [|c rest]] IH]; try reflexivity.
  change (Draw.midpointCurves (a :: b :: c :: rest))
    with (Draw.QuadraticCurveTo (fst (fst a)) (snd (fst a))
            ((fst (fst a) + fst (fst b)) / 2)%float
            ((snd (fst a) + snd (fst b)) / 2)%float
          :: Draw.midpointCurves (b :: c :: rest)).
  simpl length in *. rewrite IH. lia.
Qed.

Lemma Draw_lastCurve_ends (points : list Draw.Point3) (final : Draw.Point3) :
  (2 <= length points)%nat ->
  last points = Some final ->
  exists a : Draw.Point3,
    Draw.lastCurve points
            = [Draw.QuadraticCurveTo (fst (fst a)) (snd (fst a))
                                     (fst (fst final)) (snd (fst final))].
Proof.
  induction points as [|a [|b [|c rest]] IH]; simpl length; intros Hlen Hfinal;
    try lia.
  - injection Hfinal as <-. exists a. reflexivity.
  - destruct IH as [a' Ha']; [simpl; lia|exact Hfinal|].
    exists a'. exact Ha'.
Qed.

(** X19: with [useCurves] on and three points or more, [curves] moves to the
    first point and draws one quadratic curve less than there are points, the
    last of them ending exactly at the last point, then strokes once.  It
    never begins a new path, and it leaves the stroke and fill styles of the
    context as they were: the depth of the points plays no part. *)
Theorem Draw_curves_path
    (ctx : Draw.Context) (first final : Draw.Point3) (points : list Draw.Point3)
    (o : Draw.DrawOptions) :
  Draw.useCurves o = true ->
  (3 <= length points)%nat ->
  head points = Some first ->
  last points = Some final ->
  exists (segments : list Draw.call) (a : Draw.Point3),
    Draw.calls (curves ctx points o)
    = Draw.calls ctx
      ++ Draw.MoveTo (fst (fst first)) (snd (fst first))
         :: segments
      ++ Draw.Stroke
         :: (if Draw.fillPolygons o then [Draw.ClosePath; Draw.Fill] else [])
    /\ length segments = (length points - 1)%nat
    /\ Forall (fun c => exists cpx cpy x y, c = Draw.QuadraticCurveTo cpx cpy x y)
              segments
    /\ last segments
       = Some (Draw.QuadraticCurveTo (fst (fst a)) (snd (fst a))
                                     (fst (fst final)) (snd (fst final)))
    /\ Draw.strokeStyle (curves ctx points o) = Draw.strokeStyle ctx
    /\ Draw.fillStyle (curves ctx points o) = Draw.fillStyle ctx
    /\ Draw.ctx_lineWidth (curves ctx points o) = Draw.lineWidth o.
Proof.
  intros Hcurves Hlen Hfirst Hfinal.
  destruct (Draw_lastCurve_ends points final) as [a Hlast]; [lia|exact Hfinal|].
  exists (Draw.midpointCurves points ++ Draw.lastCurve points), a.
  assert (Hsegments :
            Forall (fun c => exists cpx cpy x y, c = Draw.QuadraticCurveTo cpx cpy x y)
                   (Draw.midpointCurves points)).
  { clear. induction points as [|p [|q [|r rest]] IH]; try constructor.
    - eauto.
    - exact IH. }
  destruct points as [|p [|q [|r rest]]]; simpl in Hlen; try lia.
  injection Hfirst as <-.
  unfold Draw.curves. rewrite Hcurves.
  replace (negb true || (length (p :: q :: r :: rest) <=? 2)%nat) with false
    by reflexivity.
  cbv zeta. rewrite Draw_invoke_fold.
  repeat apply conj.
  - destruct (Draw.fillPolygons o); simpl; rewrite <- !app_assoc; simpl;
      now rewrite <- !app_assoc.
  - rewrite length_app, Draw_midpointCurves_length, Hlast. simpl. lia.
  - apply Forall_app. split; [exact Hsegments|].
    rewrite Hlast. repeat constructor. eauto.
  - rewrite Hlast. apply last_snoc.
  - now destruct (Draw.fillPolygons o).
  - now destruct (Draw.fillPolygons o).
  - now destruct (Draw.fillPolygons o).
Qed.

End DrawFacts.

(** The counter model [EfficientPose.predict] is the pose module seen through
    its counter and the number of keypoints it holds. *)
Lemma Pose_counter_view (Math_round : float -> float) (shape1 shape2 : float)
    (output : option (list Pose.Row)) (config : Pose.Config) (st : Pose.State) :
  let view (st : Pose.State) :=
    EfficientPose.mkCache (Pose.skipped st) (length (Pose.keypoints st)) in
  let found :=
    if Pose.enabled config
    then (fun kpt => length (Pose.extract Math_round config shape1 shape2 0 kpt))
           <$> output
    else None in
  EfficientPose.predict (Pose.skipFrames config) (Pose.skipFrame config) found
                        (view st)
  = (fst (fst (Pose.predict Math_round shape1 shape2 output config st)),
     view (snd (Pose.predict Math_round shape1 shape2 output config st))).
Proof.
  cbv zeta. unfold EfficientPose.predict, Pose.predict, Pose.cached. simpl.
  destruct (_ && _ && _); [reflexivity|].
  destruct (Pose.enabled config); [|reflexivity].
  now destruct output.
Qed.

(** ** Runs of the drawing primitives *)

Lemma Draw_fewer_than_two_points_witness :
  Draw.lines Draw.depthColor Draw.roundWhole Draw.blank [(3, 4, None)]%float
             Draw.curved
  = Draw.blank
  /\ Draw.curves Draw.depthColor Draw.roundWhole Draw.blank [(3, 4, None)]%float
                 Draw.curved
     = Draw.blank.
Proof.
  pose proof (Draw_fewer_than_two_points Draw.depthColor Draw.roundWhole
                Draw.blank [(3, 4, None)]%float Draw.curved) as Hnone.
  apply Hnone. simpl. lia.
Defined.

Lemma Draw_lines_path_witness :
  Draw.strokeStyle
    (Draw.lines Draw.depthColor Draw.roundWhole Draw.blank Draw.triangle Draw.plain)
  = "white"%string.
Proof.
  pose proof (Draw_lines_path Draw.depthColor Draw.roundWhole Draw.blank
                (0, 0, None)%float (10, 10, Some 0)%float Draw.triangle Draw.plain)
    as Hpath.
  destruct Hpath as (_ & Hstroke & _); [simpl; lia|reflexivity|reflexivity|].
  rewrite Hstroke. reflexivity.
Defined.


Lemma Draw_curves_path_witness :
  Draw.strokeStyle
    (Draw.curves Draw.depthColor Draw.roundWhole Draw.blank Draw.triangle Draw.curved)
  = "black"%string
  /\ Draw.calls
       (Draw.curves Draw.depthColor Draw.roundWhole Draw.blank Draw.triangle
                    Draw.curved)
     = [ Draw.MoveTo 0 0; Draw.QuadraticCurveTo 0 0 5 0;
         Draw.QuadraticCurveTo 10 0 10 10; Draw.Stroke; Draw.ClosePath;
         Draw.Fill ]%float.
Proof.
  pose proof (Draw_curves_path Draw.depthColor Draw.roundWhole Draw.blank
                (0, 0, None)%float (10, 10, Some 0)%float Draw.triangle Draw.curved)
    as Hpath.
  destruct Hpath as (segments & a & _ & _ & _ & _ & Hstroke & _);
    [reflexivity|simpl; lia|reflexivity|reflexivity|].
  split; [rewrite Hstroke|]; reflexivity.
Defined.
